(** * TinderDataEvaluation: the aggregation and reporting pipeline of [main.py]

    A shallow embedding of the pure part of [main.py] (the grouping helper
    [_get_mapped_sum], the series helper [_split_tuples] behind
    [sorted(... .items())], the three logging report functions
    [general_info], [messages_total] and [swipes_total], the numpy
    expressions of the ratio charts and the loop of [message_loyality])
    together with the
    slice of the Python runtime these functions rely on: exceptions,
    [int()], [sum()], integer true division, binary64 arithmetic,
    [numpy.mean], [str.format] for the [d], [,d] and [.1f] specifications and
    [datetime.strptime] for the pattern [%Y-%m-%d].

    Conventions.
    - A Python [str] is a Rocq [string]; the model covers ASCII text (the
      bytes of a Rocq string are then the code points of the Python one).
    - A loaded JSON object is the list of its items in document order; its
      keys are pairwise distinct, because [json.loads] keeps one entry per
      key.  Iterating the dict is iterating that list.
    - The [defaultdict(int)] accumulator is a [gmap]; its [.items()] is
      only ever consumed through [sorted], which forgets insertion order.
    - A function that may raise returns a [result]; a function that also
      writes to [LOG] returns a [report]: the lines emitted and the outcome.
    - Plotting (matplotlib) is outside the model. *)

From Stdlib Require Import ZArith String Ascii SpecFloat DecimalString OrdersEx.
From stdpp Require Import gmap strings list fin_maps sorting.

Open Scope Z_scope.

(** ** Exceptions and the two effect layers *)

Module Py.

(** The exceptions the modelled code can raise.  Python has one
    [ValueError] class; the constructor records which call raised it. *)
Inductive exn : Set :=
  | ValueError_strptime   (* datetime.strptime: no match, trailing data, bad date *)
  | ValueError_int        (* int(): invalid literal *)
  | ValueError_empty      (* min()/max() of an empty iterable *)
  | TypeError             (* '>' or '+' between str and int *)
  | ZeroDivisionError     (* int / 0 *)
  | OverflowError.        (* int / int too large for a float *)

Inductive result (A : Type) : Type :=
  | Ok (a : A)
  | Raise (e : exn).
Arguments Ok {A} a.
Arguments Raise {A} e.

#[global] Instance result_ret : MRet result := @Ok.
#[global] Instance result_bind : MBind result := λ A B f r,
  match r with Ok a => f a | Raise e => Raise e end.

#[global] Instance result_fmap : FMap result := λ A B f r,
  match r with Ok a => Ok (f a) | Raise e => Raise e end.

Definition is_Ok {A} (r : result A) : Prop := ∃ a, r = Ok a.

(** [LOG.info]: the lines written so far survive an exception. *)
Record report (A : Type) : Type := Report {
  emitted : list string;
  outcome : result A
}.
Arguments Report {A} emitted outcome.
Arguments emitted {A} r.
Arguments outcome {A} r.

#[global] Instance report_ret : MRet report := λ A a, Report [] (Ok a).
#[global] Instance report_bind : MBind report := λ A B f r,
  match outcome r with
  | Ok a => let r' := f a in Report (emitted r ++ emitted r') (outcome r')
  | Raise e => Report (emitted r) (Raise e)
  end.

Definition lift {A} (r : result A) : report A := Report [] r.
Definition LOG_info (line : string) : report unit := Report [line] (Ok ()).

(** ** JSON values of the [Usage] counters

    The data model admits an integer or a string per day. *)
Inductive value : Set :=
  | VInt (n : Z)
  | VStr (s : string).

(** Dict views of a loaded JSON object. *)
Definition keys {V} (d : list (string * V)) : list string := d.*1.
Definition values {V} (d : list (string * V)) : list V := d.*2.

(** ** [int()] *)

(** Whitespace of an ASCII literal: tab, LF, VT, FF, CR and space. *)
Definition is_space (c : ascii) : bool :=
  let n := Z.of_nat (nat_of_ascii c) in
  ((9 <=? n) && (n <=? 13)) || (n =? 32).

Definition digit_of (c : ascii) : option Z :=
  let n := Z.of_nat (nat_of_ascii c) in
  if (48 <=? n) && (n <=? 57) then Some (n - 48) else None.

Fixpoint lstrip (l : list ascii) : list ascii :=
  match l with
  | c :: l' => if is_space c then lstrip l' else l
  | [] => []
  end.

Definition strip (l : list ascii) : list ascii :=
  reverse (lstrip (reverse (lstrip l))).

(** Decimal digits, single underscores allowed between two digits. *)
Fixpoint digits_from (acc : Z) (after_digit : bool) (l : list ascii)
  : option Z :=
  match l with
  | [] => if after_digit then Some acc else None
  | c :: l' =>
      match digit_of c with
      | Some d => digits_from (10 * acc + d) true l'
      | None =>
          if Ascii.eqb c "_" && after_digit then digits_from acc false l'
          else None
      end
  end.

(** [int(s)] on a string: surrounding whitespace, an optional sign, then
    the digits.  (The interpreter's configurable cap on the number of
    digits is not modelled.) *)
Definition int_of_str (s : string) : result Z :=
  let body := strip (list_ascii_of_string s) in
  let parsed :=
    match body with
    | c :: l' =>
        if Ascii.eqb c "-" then Z.opp <$> digits_from 0 false l'
        else if Ascii.eqb c "+" then digits_from 0 false l'
        else digits_from 0 false body
    | [] => None
    end in
  match parsed with Some n => Ok n | None => Raise ValueError_int end.

Definition int (v : value) : result Z :=
  match v with
  | VInt n => Ok n
  | VStr s => int_of_str s
  end.

(** ** [sum()], [>], [min()], [max()] *)

(** [acc + v] with an [int] on the left. *)
Definition add (acc : Z) (v : value) : result Z :=
  match v with
  | VInt n => Ok (acc + n)
  | VStr _ => Raise TypeError
  end.

Fixpoint sum_from (acc : Z) (vs : list value) : result Z :=
  match vs with
  | [] => Ok acc
  | v :: vs' => acc' ← add acc v; sum_from acc' vs'
  end.

Definition sum (vs : list value) : result Z := sum_from 0 vs.

(** [v > 0]. *)
Definition gt0 (v : value) : result bool :=
  match v with
  | VInt n => Ok (0 <? n)
  | VStr _ => Raise TypeError
  end.

(** [min] and [max] keep the first of several equal candidates. *)
Fixpoint min_from (best : string) (l : list string) : string :=
  match l with
  | [] => best
  | x :: l' => min_from (if String.ltb x best then x else best) l'
  end.

Fixpoint max_from (best : string) (l : list string) : string :=
  match l with
  | [] => best
  | x :: l' => max_from (if String.ltb best x then x else best) l'
  end.

Definition min (l : list string) : result string :=
  match l with
  | [] => Raise ValueError_empty
  | x :: l' => Ok (min_from x l')
  end.

Definition max (l : list string) : result string :=
  match l with
  | [] => Raise ValueError_empty
  | x :: l' => Ok (max_from x l')
  end.

(** ** Integer formatting: [str(n)], [{n:d}], [{n:,d}], [.replace] *)

Definition format_d (n : Z) : string := NilZero.string_of_int (Z.to_int n).

(** Insert a comma before every complete group of three trailing digits. *)
Fixpoint group3 (l : list ascii) (k : nat) : list ascii :=
  match l with
  | [] => []
  | c :: l' =>
      let rest := group3 l' (Nat.pred k) in
      if Nat.eqb (k `mod` 3)%nat 1 && negb (Nat.eqb k 1) then c :: "," :: rest
      else c :: rest
  end%char.

Definition format_comma_d (n : Z) : string :=
  let ds := list_ascii_of_string (format_d (Z.abs n)) in
  let body := string_of_list_ascii (group3 ds (length ds)) in
  if n <? 0 then "-" +:+ body else body.

(** [s.replace(",", "'")]. *)
Definition replace_comma (s : string) : string :=
  string_of_list_ascii
    ((λ c : ascii, if Ascii.eqb c "," then "'"%char else c)
       <$> list_ascii_of_string s).

End Py.

(** ** binary64 arithmetic, as used by [/], [*], [numpy.mean] and [.1f]

    Floats are [spec_float] values at precision 53 and exponent bound 1024;
    [SFdiv] and [SFmul] round to nearest, ties to even, as the hardware
    does. *)

Module Float.
Import Py.

Definition prec : Z := 53.
Definition emax : Z := 1024.

(** The float nearest to an integer ([float(n)] below the overflow range). *)
Definition of_int (n : Z) : spec_float := binary_normalize prec emax n 0 false.

(** An integer as an unrounded operand. *)
Definition exact (n : Z) : spec_float :=
  match n with
  | 0 => S754_zero false
  | Zpos p => S754_finite false p 0
  | Zneg p => S754_finite true p 0
  end.

(** [a / b] on two Python ints: the correctly rounded quotient. *)
Definition truediv (a b : Z) : result spec_float :=
  if b =? 0 then Raise ZeroDivisionError
  else
    match SFdiv prec emax (exact a) (exact b) with
    | S754_infinity _ => Raise OverflowError
    | q => Ok q
    end.

(** [x * n] with a float on the left and an int literal on the right. *)
Definition mul_int (x : spec_float) (n : Z) : spec_float :=
  SFmul prec emax x (of_int n).

(** *** [numpy.mean] of a list of Python ints

    [numpy.mean(l)] builds an array from the list, adds its elements up
    and divides by their number.  What is added, and how, depends on the
    element type the array gets. *)

(** The element type of [numpy.asarray(l)].  A Python int is an [int64]
    if it fits, else a [uint64] if it fits, else a Python object; [int64]
    and [uint64] together promote to [float64], anything together with an
    object to object, and the empty list gives a [float64] array. *)
Inductive dtype : Set := dt_int64 | dt_uint64 | dt_float64 | dt_object.

Definition discover (n : Z) : dtype :=
  if (- 2 ^ 63 <=? n) && (n <? 2 ^ 63) then dt_int64
  else if (2 ^ 63 <=? n) && (n <? 2 ^ 64) then dt_uint64
  else dt_object.

Definition promote (a b : dtype) : dtype :=
  match a, b with
  | dt_object, _ | _, dt_object => dt_object
  | dt_int64, dt_int64 => dt_int64
  | dt_uint64, dt_uint64 => dt_uint64
  | _, _ => dt_float64
  end.

Definition array_dtype (xs : list Z) : dtype :=
  match xs with
  | [] => dt_float64
  | x :: xs' => foldl (λ d y, promote d (discover y)) (discover x) xs'
  end.

Definition fadd : spec_float → spec_float → spec_float := SFadd prec emax.
Definition fdiv : spec_float → spec_float → spec_float := SFdiv prec emax.
Definition zero : spec_float := S754_zero false.

(** The inner loop of [add.reduce] on doubles is numpy's pairwise
    summation.  Fewer than eight elements are added in order.  Up to 128
    elements go through eight running sums, one per position in a group
    of eight; the eight are then added in pairs, and the elements after
    the last full group are added in order.  A longer block is split in
    two near its middle, at a multiple of eight. *)
Fixpoint unrolled (r0 r1 r2 r3 r4 r5 r6 r7 : spec_float)
    (a : list spec_float) : spec_float :=
  match a with
  | x0 :: x1 :: x2 :: x3 :: x4 :: x5 :: x6 :: x7 :: rest =>
      unrolled (fadd r0 x0) (fadd r1 x1) (fadd r2 x2) (fadd r3 x3)
               (fadd r4 x4) (fadd r5 x5) (fadd r6 x6) (fadd r7 x7) rest
  | _ =>
      foldl fadd
        (fadd (fadd (fadd r0 r1) (fadd r2 r3)) (fadd (fadd r4 r5) (fadd r6 r7)))
        a
  end.

Definition block_sum (a : list spec_float) : spec_float :=
  match a with
  | x0 :: x1 :: x2 :: x3 :: x4 :: x5 :: x6 :: x7 :: rest =>
      unrolled x0 x1 x2 x3 x4 x5 x6 x7 rest
  | _ => foldl fadd zero a
  end.

(** [depth] bounds the number of nested splits; the length of the block
    is always enough ([pairwise_sum_depth] below). *)
Fixpoint pairwise_sum_upto (depth : nat) (a : list spec_float) : spec_float :=
  match depth with
  | S depth' =>
      let n := length a in
      if (128 <? n)%nat then
        let n2 := (n / 2 - (n / 2) `mod` 8)%nat in
        fadd (pairwise_sum_upto depth' (take n2 a))
             (pairwise_sum_upto depth' (drop n2 a))
      else block_sum a
  | O => block_sum a
  end.

Definition pairwise_sum (a : list spec_float) : spec_float :=
  pairwise_sum_upto (length a) a.

(** An integer array is converted to doubles through the iteration
    buffer, 8192 elements at a time, and each filled buffer adds its
    pairwise sum to the accumulator.  [rounds] bounds the number of
    buffers; the length of the array is always enough
    ([buffered_sum_rounds] below). *)
Definition bufsize : nat := Z.to_nat 8192.

Fixpoint buffered_sum_upto (rounds : nat) (acc : spec_float)
    (a : list spec_float) : spec_float :=
  match rounds, a with
  | S rounds', _ :: _ =>
      buffered_sum_upto rounds' (fadd acc (pairwise_sum (take bufsize a)))
                        (drop bufsize a)
  | _, _ => acc
  end.

Definition buffered_sum (a : list spec_float) : spec_float :=
  buffered_sum_upto (length a) zero a.

(** [numpy.mean(xs)] for a list of Python ints.

    - An [int64] or [uint64] array is summed in binary64 through the
      buffer and the sum is divided by the count as a double.
    - A [float64] array (the empty list, or [int64] and [uint64] values
      together) holds the nearest doubles and is summed in one block; on
      the empty list the division is [0.0 / 0], which is NaN (numpy only
      warns).
    - An object array is summed with Python's exact [+], and the sum, a
      Python int, is divided by the count, a numpy integer: within the
      64-bit range both are converted to doubles and divided; beyond it
      the division is Python's [int / int], which raises [OverflowError]
      when the quotient is too large for a float.  (This is numpy 1;
      numpy 2 raises [OverflowError] for every sum beyond the [int64]
      range.  In both, nothing but an object array makes the mean
      raise.) *)
Definition np_mean (xs : list Z) : result spec_float :=
  let n := Z.of_nat (length xs) in
  match array_dtype xs with
  | dt_int64 | dt_uint64 =>
      Ok (fdiv (buffered_sum (of_int <$> xs)) (of_int n))
  | dt_float64 =>
      Ok (fdiv (fadd zero (pairwise_sum (of_int <$> xs))) (of_int n))
  | dt_object =>
      let s := foldl Z.add 0 xs in
      if (- 2 ^ 63 <=? s) && (s <? 2 ^ 64) then Ok (fdiv (of_int s) (of_int n))
      else truediv s n
  end.

Definition round_half_even (num den : Z) : Z :=
  let q := num / den in
  let r := num mod den in
  if 2 * r <? den then q
  else if den <? 2 * r then q + 1
  else if Z.even q then q else q + 1.

(** [f"{x:.1f}"]: the exact binary value, rounded to one decimal. *)
Definition format_1f (x : spec_float) : string :=
  match x with
  | S754_nan => "nan"
  | S754_infinity s => if s then "-inf" else "inf"
  | S754_zero s => if s then "-0.0" else "0.0"
  | S754_finite s m e =>
      let tenths :=
        if 0 <=? e then Zpos m * 2 ^ e * 10
        else round_half_even (Zpos m * 10) (2 ^ (- e)) in
      (if s then "-" else EmptyString)
        +:+ format_d (tenths / 10) +:+ "." +:+ format_d (tenths mod 10)
  end.

End Float.

(** ** [datetime.strptime(x, "%Y-%m-%d")], [toordinal], [weekday] *)

Module DateTime.
Import Py.

Record date : Set := Date { year : Z; month : Z; day : Z }.

Definition is_leap (y : Z) : bool :=
  (y mod 4 =? 0) && (negb (y mod 100 =? 0) || (y mod 400 =? 0)).

Definition days_in_month (y m : Z) : Z :=
  if (m =? 2) && is_leap y then 29
  else nth (Z.to_nat m) [0; 31; 28; 31; 30; 31; 30; 31; 31; 30; 31; 30; 31] 0.

Definition days_before_year (y : Z) : Z :=
  let p := y - 1 in p * 365 + p / 4 - p / 100 + p / 400.

Definition days_before_month (y m : Z) : Z :=
  nth (Z.to_nat m) [0; 0; 31; 59; 90; 120; 151; 181; 212; 243; 273; 304; 334] 0
  + (if (2 <? m) && is_leap y then 1 else 0).

Definition toordinal (d : date) : Z :=
  days_before_year (year d) + days_before_month (year d) (month d) + day d.

(** Monday is 0, Sunday is 6. *)
Definition weekday (d : date) : Z := (toordinal d + 6) mod 7.

(** The [date] constructor checks its fields. *)
Definition new_date (y m d : Z) : result date :=
  if (1 <=? y) && (y <=? 9999) && (1 <=? m) && (m <=? 12)
     && (1 <=? d) && (d <=? days_in_month y m)
  then Ok (Date y m d)
  else Raise ValueError_strptime.

(** The directive patterns of [_strptime]:
    [%Y] is [\d\d\d\d], [%m] is [1[0-2]|0[1-9]|[1-9]],
    [%d] is [3[0-1]|[1-2]\d|0[1-9]|[1-9]| [1-9]].
    The alternatives are tried in order; no later alternative can succeed
    where an earlier one matched and the rest of the pattern failed, so the
    first match decides. *)
Definition in_range (lo hi c : ascii) : bool :=
  (nat_of_ascii lo <=? nat_of_ascii c)%nat
  && (nat_of_ascii c <=? nat_of_ascii hi)%nat.

Definition dval (c : ascii) : Z := Z.of_nat (nat_of_ascii c) - 48.

Definition one (lo hi : ascii) (l : list ascii) : option (Z * list ascii) :=
  match l with
  | c :: rest => if in_range lo hi c then Some (dval c, rest) else None
  | [] => None
  end.

Definition two (lo1 hi1 lo2 hi2 : ascii) (l : list ascii)
  : option (Z * list ascii) :=
  '(a, l1) ← one lo1 hi1 l; '(b, l2) ← one lo2 hi2 l1; Some (10 * a + b, l2).

Definition literal (c : ascii) (l : list ascii) : option (list ascii) :=
  match l with
  | c' :: rest => if Ascii.eqb c c' then Some rest else None
  | [] => None
  end.

Definition first_match {A} (alts : list (option A)) : option A :=
  foldr (λ a r, match a with Some x => Some x | None => r end) None alts.

Definition match_Y (l : list ascii) : option (Z * list ascii) :=
  '(hi, l1) ← two "0" "9" "0" "9" l;
  '(lo, l2) ← two "0" "9" "0" "9" l1;
  Some (100 * hi + lo, l2).

Definition match_m (l : list ascii) : option (Z * list ascii) :=
  first_match [two "1" "1" "0" "2" l; two "0" "0" "1" "9" l; one "1" "9" l].

Definition match_d (l : list ascii) : option (Z * list ascii) :=
  first_match [two "3" "3" "0" "1" l; two "1" "2" "0" "9" l;
               two "0" "0" "1" "9" l; one "1" "9" l;
               literal " " l ≫= one "1" "9"].

Definition match_format (l : list ascii) : option (Z * Z * Z * list ascii) :=
  '(y, l1) ← match_Y l;
  l2 ← literal "-" l1;
  '(m, l3) ← match_m l2;
  l4 ← literal "-" l3;
  '(d, l5) ← match_d l4;
  Some (y, m, d, l5).

Definition strptime (x : string) : result date :=
  match match_format (list_ascii_of_string x) with
  | Some (y, m, d, []) => new_date y m d
  | Some (_, _, _, _ :: _) => Raise ValueError_strptime (* unconverted data *)
  | None => Raise ValueError_strptime                   (* does not match *)
  end.

End DateTime.

(** ** Ordering of group keys and of [(key, value)] tuples *)

(** Python's [<] on a key type: a decidable strict total order. *)
Class PyOrd (K : Type) := {
  py_lt : relation K;
  py_lt_dec :: RelDecision py_lt;
  py_lt_strict :: StrictOrder py_lt;
  py_lt_trichotomy :: Trichotomy py_lt
}.

(** [<] on [str]: code point order. *)
Definition str_lt (a b : string) : Prop := String.compare a b = Lt.

#[global] Instance str_lt_dec : RelDecision str_lt.
Proof. intros a b. unfold str_lt. solve_decision. Defined.

(** Tuples compare by key first and by value on equal keys; [sorted]
    keeps [p] before [q] unless [q < p]. *)
Definition tuple_le `{PyOrd K} (p q : K * Z) : Prop :=
  py_lt p.1 q.1 ∨ (p.1 = q.1 ∧ p.2 ≤ q.2).

#[global] Instance tuple_le_dec `{PyOrd K, EqDecision K} :
  RelDecision (tuple_le (K:=K)).
Proof. intros p q. unfold tuple_le. solve_decision. Defined.

(** [sorted(l)] on a list of tuples.  The tuple order is total and
    antisymmetric, so a list has one sorted arrangement and any sorting
    algorithm computes it. *)
Definition sorted `{PyOrd K, EqDecision K} (l : list (K * Z)) : list (K * Z) :=
  merge_sort tuple_le l.

(** ** The functions of [main.py] *)

Module Main.
Import Py Float DateTime.

(** [id_fun = lambda x: x[0:7]] *)
Definition month_id (x : string) : result string := Ok (substring 0 7 x).

(** [id_fun = lambda x: datetime.strptime(x, DATEFORMAT).weekday()] *)
Definition weekday_id (x : string) : result Z :=
  d ← strptime x; mret (weekday d).

(** [_get_mapped_sum(map, data)]: for each key in order, classify it,
    coerce its value, and add into the [defaultdict(int)]. *)
Fixpoint mapped_loop `{Countable K} (map : string → result K)
    (mapped : gmap K Z) (data : list (string * value)) : result (gmap K Z) :=
  match data with
  | [] => Ok mapped
  | (k, v) :: rest =>
      g ← map k;
      n ← int v;
      mapped_loop map (<[g := default 0 (mapped !! g) + n]> mapped) rest
  end.

Definition _get_mapped_sum `{Countable K} (map : string → result K)
    (data : list (string * value)) : result (gmap K Z) :=
  mapped_loop map ∅ data.

(** [_split_tuples(tuple_list)] *)
Definition _split_tuples {A B} (tuple_list : list (A * B)) : list A * list B :=
  (tuple_list.*1, tuple_list.*2).

(** [.items()] of a grouped mapping. *)
Definition items `{Countable K} (m : gmap K Z) : list (K * Z) := map_to_list m.

(** The series builder: [_split_tuples(sorted(m.items()))]. *)
Definition series `{Countable K, PyOrd K} (m : gmap K Z) : list K * list Z :=
  _split_tuples (sorted (items m)).

(** The first lines of every chart function:
    [_split_tuples(sorted(_get_mapped_sum(id_fun, data).items()))]. *)
Definition grouped_series `{Countable K, PyOrd K} (id_fun : string → result K)
    (data : list (string * value)) : result (list K * list Z) :=
  m ← _get_mapped_sum id_fun data; mret (series m).

(** [sum(m.values())] of a grouped mapping. *)
Definition total `{Countable K} (m : gmap K Z) : Z :=
  foldr Z.add 0 (items m).*2.

(** [[int(v) for v in vs if v > 0]] *)
Fixpoint int_of_positive (vs : list value) : result (list Z) :=
  match vs with
  | [] => Ok []
  | v :: vs' =>
      b ← gt0 v;
      if b : bool then n ← int v; rest ← int_of_positive vs'; mret (n :: rest)
      else int_of_positive vs'
  end.

(** [[v for v in vs if v > 0]] *)
Fixpoint positive_of (vs : list value) : result (list value) :=
  match vs with
  | [] => Ok []
  | v :: vs' =>
      b ← gt0 v;
      rest ← positive_of vs';
      mret (if b : bool then v :: rest else rest)
  end.

(** A day without use: an integer count that is not positive. *)
Definition not_positive_int (v : value) : Prop := ∃ n, v = VInt n ∧ n ≤ 0.

(** [general_info(data)], with [app_opens = data["Usage"]["app_opens"]]. *)
Definition general_info (app_opens : list (string * value)) : report unit :=
  min_date ← lift (Py.min (keys app_opens));
  max_date ← lift (Py.max (keys app_opens));
  pos ← lift (positive_of (values app_opens));
  let used := Z.of_nat (length pos) in
  hi ← lift (strptime max_date);
  lo ← lift (strptime min_date);
  let days := toordinal hi - toordinal lo in
  _ ← LOG_info "--- General Info ---";
  _ ← LOG_info ("Start Date: " +:+ min_date);
  _ ← LOG_info ("End Date:   " +:+ max_date);
  _ ← LOG_info ("Days:       " +:+ format_d days);
  _ ← LOG_info ("  - used:   " +:+ format_d used);
  _ ← LOG_info ("  - unused: " +:+ format_d (days - used));
  opens ← lift (int_of_positive (values app_opens));
  mean ← lift (np_mean opens);
  _ ← LOG_info ("Av. app-open per usage-day: " +:+ format_1f mean);
  LOG_info EmptyString.

(** [messages_total(sent, received)] *)
Definition messages_total (sent received : list (string * value))
  : report unit :=
  total_sent ← lift (Py.sum (values sent));
  total_received ← lift (Py.sum (values received));
  _ ← LOG_info "--- Message Statistics ---";
  _ ← LOG_info (replace_comma ("Send:     " +:+ format_comma_d total_sent));
  _ ← LOG_info (replace_comma ("Received: " +:+ format_comma_d total_received));
  LOG_info EmptyString.

(** [swipes_total(likes, passes, matches)] *)
Definition swipes_total (likes passes matches : list (string * value))
  : report unit :=
  total_likes ← lift (Py.sum (values likes));
  total_passes ← lift (Py.sum (values passes));
  let total_swipes := total_likes + total_passes in
  total_matches ← lift (Py.sum (values matches));
  _ ← LOG_info "--- Swipe Statistics ---";
  _ ← LOG_info (replace_comma ("Total Swipes: " +:+ format_comma_d total_swipes));
  p ← lift (truediv total_passes total_swipes);
  _ ← LOG_info (replace_comma
        ("- Passes: " +:+ format_comma_d total_passes
         +:+ " (" +:+ format_1f (mul_int p 100) +:+ "%)"));
  l ← lift (truediv total_likes total_swipes);
  _ ← LOG_info (replace_comma
        ("- Likes: " +:+ format_comma_d total_likes
         +:+ " (" +:+ format_1f (mul_int l 100) +:+ "%)"));
  ms ← lift (truediv total_matches total_swipes);
  let head := replace_comma
        ("- Matches: " +:+ format_d total_matches
         +:+ " (" +:+ format_1f (mul_int ms 100) +:+ "% of swipes") in
  ml ← lift (truediv total_matches total_likes);
  _ ← LOG_info (head +:+ ", " +:+ format_1f (mul_int ml 100) +:+ "% of likes)");
  LOG_info EmptyString.

End Main.

(** ** The numeric part of the chart functions

    Every chart function hands matplotlib the series of its grouped
    mappings; the ratio charts first combine the value sequences with
    numpy.  The matplotlib calls themselves are outside the model. *)

Module Charts.
Import Py Float Main.

(** An elementwise numpy operation on two one-dimensional arrays: equal
    lengths pair up by position, an array of length one is stretched over
    the other, and any other pair of shapes raises numpy's [ValueError]
    (operands could not be broadcast together), here [None]. *)
Definition broadcast {A B C} (f : A → B → C) (a : list A) (b : list B)
  : option (list C) :=
  if decide (length a = length b) then Some (zip_with f a b)
  else
    match a, b with
    | [x], _ => Some (f x <$> b)
    | _, [y] => Some ((λ x, f x y) <$> a)
    | _, _ => None
    end.

(** A list of Python ints within int64 becomes an int64 array (numpy's
    default integer on 64-bit Unix, and everywhere since numpy 2).
    [x / y] on two int64 entries: both are converted to binary64 and
    divided; a zero divisor gives an infinity or NaN, with a warning. *)
Definition np_truediv (x y : Z) : spec_float :=
  SFdiv prec emax (of_int x) (of_int y).

(** The range of an int64 entry. *)
Definition int64 (z : Z) : Prop := - 2 ^ 63 ≤ z < 2 ^ 63.

(** [x + y] on two int64 entries wraps around. *)
Definition wrap64 (z : Z) : Z := (z + 2 ^ 63) `mod` 2 ^ 64 - 2 ^ 63.
Definition np_add (x y : Z) : Z := wrap64 (x + y).

(** [np.array(num) / np.array(den) * 100], for counts within int64. *)
Definition percent (num den : list Z) : option (list spec_float) :=
  (λ qs : list spec_float, (λ q, mul_int q 100) <$> qs)
    <$> broadcast np_truediv num den.

(** The line of [messages_monthly] and [messages_weekday]:
    [ax1.plot(sent_map[0],
              np.array(received_map[1]) / np.array(sent_map[1]) * 100)]. *)
Definition messages_ratio_line {K} (sent_map received_map : list K * list Z)
  : option (list K * list spec_float) :=
  ys ← percent received_map.2 sent_map.2; Some (sent_map.1, ys).

(** The two lines of [swipes_monthly_relative] and
    [swipes_weekday_relative]:
    [total = np.array(like_map[1]) + np.array(pass_map[1])],
    [ax.plot(like_map[0], np.array(like_map[1]) / total * 100)] and
    [ax.plot(match_map[0],
             np.array(match_map[1]) / np.array(like_map[1]) * 100)]. *)
Definition swipes_relative_lines {K} (like_map pass_map match_map : list K * list Z)
  : option ((list K * list spec_float) * (list K * list spec_float)) :=
  total ← broadcast np_add like_map.2 pass_map.2;
  likes ← percent like_map.2 total;
  matches ← percent match_map.2 like_map.2;
  Some ((like_map.1, likes), (match_map.1, matches)).

End Charts.

(** ** The message timeline

    [data["Messages"]] is a list of match objects, each with its list of
    message objects under ["messages"], each with a ["sent_date"] string. *)

Module Loyalty.
Import Py.

Record message : Set := Message { sent_date : string }.
Record match_obj : Set := Match { messages : list message }.

Section message_loyality.
(** [datetime.strptime(s, MESSAGE_DATEFORMAT)]: the names of days, months
    and time zones it accepts depend on the locale, so the parser is a
    parameter. *)
Context {T : Type} (parse : string → result T).

(** The body of [for idx in range(len(matches))], from [idx] on: the
    arguments of each [ax.plot(dates, [idx] * len(dates), ...)]. *)
Fixpoint plot_from (idx : nat) (matches : list match_obj)
  : result (list (list T * list nat)) :=
  match matches with
  | [] => Ok []
  | m :: rest =>
      dates ← mapM parse (sent_date <$> messages m);
      plotted ← plot_from (S idx) rest;
      mret ((dates, replicate (length dates) idx) :: plotted)
  end.


(** [message_loyality(path, data)], with [Messages = data["Messages"]]. *)
Definition message_loyality (Messages : list match_obj)
  : result (list (list T * list nat)) :=
  plot_from 0 (reverse Messages).
End message_loyality.

End Loyalty.

(** ** Notions used to state properties of the grouping *)

Module Groups.
Import Py.

#[global] Instance exn_eq_dec : EqDecision exn.
Proof. solve_decision. Defined.

#[global] Instance result_eq_dec `{EqDecision A} : EqDecision (result A).
Proof. solve_decision. Defined.

(** The integer [int(v)] returns (and 0 where it raises). *)
Definition coerced (v : value) : Z :=
  match int v with Ok n => n | Raise _ => 0 end.

(** The items of [data] whose key classifies to [g]. *)
Definition members `{EqDecision K} (map : string → result K) (g : K)
    (data : list (string * value)) : list (string * value) :=
  filter (λ kv, map kv.1 = Ok g) data.

(** The sum of the coerced values of those items. *)
Definition group_sum `{EqDecision K} (map : string → result K) (g : K)
    (data : list (string * value)) : Z :=
  foldr Z.add 0 (coerced <$> (members map g data).*2).

(** A count stored as a JSON integer. *)
Definition int_valued (v : value) : Prop := ∃ n, v = VInt n.

#[global] Instance int_valued_dec (v : value) : Decision (int_valued v).
Proof.
  destruct v as [n|s]; [left; by exists n | right; by intros [n ?]].
Defined.

(** An item the loop of [_get_mapped_sum] passes without raising. *)
Definition accepted {K} (map : string → result K) (kv : string * value) : Prop :=
  is_Ok (map kv.1) ∧ is_Ok (int kv.2).

End Groups.

(** ** Notions used to state properties of the date keys *)

Module Calendar.
Import Py DateTime.

(** A decimal digit. *)
Definition digit (c : ascii) : Prop := in_range "0" "9" c = true.

(** What the [date] constructor accepts. *)
Definition valid (d : date) : Prop :=
  1 ≤ year d ≤ 9999 ∧ 1 ≤ month d ≤ 12
  ∧ 1 ≤ day d ≤ days_in_month (year d) (month d).

(** The calendar number of a date: year, month and day as one decimal. *)
Definition datenum (d : date) : Z := year d * 10000 + month d * 100 + day d.

(** A key written as ten characters, the day not padded with a space:
    [YYYY-MM-DD] once [strptime] accepts it. *)
Definition iso_key (k : string) : Prop :=
  String.length k = 10%nat ∧ String.get 8 k ≠ Some " "%char.

End Calendar.

(** * Properties *)

(** ** The key orders: [int] keys (weekday ordinals) and [str] keys
    (year-month strings) *)

Lemma Z_lt_trichotomy : Trichotomy Z.lt.
Proof. intros x y. lia. Qed.

#[global] Instance Z_PyOrd : PyOrd Z :=
  {| py_lt := Z.lt; py_lt_trichotomy := Z_lt_trichotomy |}.

Lemma str_lt_strict : StrictOrder str_lt.
Proof. exact String_as_OT.lt_strorder. Qed.

Lemma str_lt_trichotomy : Trichotomy str_lt.
Proof.
  intros x y. destruct (String_as_OT.compare_spec x y) as [E|L|G]; auto.
Qed.

#[global] Instance string_PyOrd : PyOrd string :=
  {| py_lt := str_lt; py_lt_strict := str_lt_strict;
     py_lt_trichotomy := str_lt_trichotomy |}.

(** [min] and [max] of [general_info] compare with the same order. *)
Lemma ltb_str_lt (a b : string) : String.ltb a b = true ↔ str_lt a b.
Proof.
  unfold String.ltb, str_lt. destruct (String.compare a b); split; congruence.
Qed.

(** ** The two monads *)

Section result_facts.
Import Py.
Context {A B : Type}.

Lemma bind_Ok (r : result A) (f : A → result B) (b : B) :
  r ≫= f = Ok b ↔ ∃ a, r = Ok a ∧ f a = Ok b.
Proof.
  destruct r as [a|e]; simpl; split.
  - intros Hf. by exists a.
  - by intros (a' & [= <-] & Hf).
  - done.
  - by intros (? & ? & ?).
Qed.

Lemma bind_Raise (r : result A) (f : A → result B) (e : exn) :
  r ≫= f = Raise e ↔ r = Raise e ∨ ∃ a, r = Ok a ∧ f a = Raise e.
Proof.
  destruct r as [a|e']; simpl; split.
  - intros Hf. right. by exists a.
  - intros [?|(a' & [= <-] & Hf)]; done.
  - intros [= <-]. by left.
  - intros [[= <-]|(? & ? & ?)]; done.
Qed.

Lemma is_Ok_Ok (a : A) : is_Ok (Ok a).
Proof. by exists a. Qed.

Lemma not_is_Ok_Raise (e : exn) : ¬ is_Ok (Raise e : result A).
Proof. by intros [a ?]. Qed.
End result_facts.

(** ** Sorting tuples *)

Section tuple_order.
Context `{PyOrd K, EqDecision K}.

#[local] Instance tuple_le_total : Total (tuple_le (K:=K)).
Proof.
  intros [k1 v1] [k2 v2]. unfold tuple_le. simpl.
  destruct (trichotomy py_lt k1 k2) as [?|[->|?]]; auto.
  destruct (Z.le_ge_cases v1 v2); auto.
Qed.

#[local] Instance tuple_le_trans : Transitive (tuple_le (K:=K)).
Proof.
  intros [k1 v1] [k2 v2] [k3 v3]. unfold tuple_le. simpl.
  intros [L12|[-> L12]] [L23|[-> L23]]; auto.
  - left. by etrans.
  - right. split; [done | lia].
Qed.

#[local] Instance tuple_le_antisym : AntiSymm (=) (tuple_le (K:=K)).
Proof.
  intros [k1 v1] [k2 v2]. unfold tuple_le. simpl.
  intros [L12|[-> L12]] [L21|[E L21]].
  - destruct (irreflexivity py_lt k1). by etrans.
  - subst. by destruct (irreflexivity py_lt k1).
  - by destruct (irreflexivity py_lt k2).
  - f_equal. lia.
Qed.

Lemma sorted_Permutation (l : list (K * Z)) : sorted l ≡ₚ l.
Proof. apply merge_sort_Permutation. Qed.

Lemma sorted_StronglySorted (l : list (K * Z)) :
  StronglySorted tuple_le (sorted l).
Proof. apply StronglySorted_merge_sort; apply _. Qed.

(** The result of [sorted] depends on the items only, not on their order. *)
Lemma sorted_unique (l1 l2 : list (K * Z)) :
  l1 ≡ₚ l2 → sorted l1 = sorted l2.
Proof.
  intros Hp. apply (StronglySorted_unique tuple_le).
  - apply sorted_StronglySorted.
  - apply sorted_StronglySorted.
  - by rewrite !sorted_Permutation.
Qed.

(** [sorted l] is the one ascending arrangement of [l]. *)
Lemma sorted_characterised (l l' : list (K * Z)) :
  l' ≡ₚ l → StronglySorted tuple_le l' → l' = sorted l.
Proof.
  intros Hp Hs. apply (StronglySorted_unique tuple_le).
  - done.
  - apply sorted_StronglySorted.
  - by rewrite sorted_Permutation.
Qed.

(** With distinct keys, tuple order is strict key order. *)
Lemma keys_strictly_sorted (l : list (K * Z)) :
  NoDup l.*1 → StronglySorted tuple_le l → StronglySorted py_lt l.*1.
Proof.
  induction l as [|p l IH]; simpl; intros Hnd Hs.
  - constructor.
  - apply NoDup_cons in Hnd as [Hp Hnd].
    apply StronglySorted_inv in Hs as [Hs Hall].
    constructor; [by apply IH|].
    apply Forall_fmap, Forall_forall. intros q Hq. simpl.
    rewrite Forall_forall in Hall.
    destruct (Hall q Hq) as [?|[E _]]; [done|].
    destruct Hp. rewrite E. by apply list_elem_of_fmap_2.
Qed.
End tuple_order.

(** ** The series builder *)

Section series_facts.
Import Py Main.
Context `{Countable K, PyOrd K}.

Lemma sorted_items_NoDup (m : gmap K Z) : NoDup (sorted (items m)).*1.
Proof.
  rewrite sorted_Permutation. apply NoDup_fst_map_to_list.
Qed.

Lemma elem_of_sorted_items (m : gmap K Z) (k : K) (v : Z) :
  (k, v) ∈ sorted (items m) ↔ m !! k = Some v.
Proof. rewrite sorted_Permutation. apply elem_of_map_to_list. Qed.

Lemma series_lookup (m : gmap K Z) (i : nat) (k : K) :
  (series m).1 !! i = Some k → (series m).2 !! i = m !! k.
Proof.
  unfold series, _split_tuples. simpl. rewrite !list_lookup_fmap.
  destruct (sorted (items m) !! i) as [[k' v]|] eqn:E; simpl; [|done].
  intros [= <-]. symmetry. apply elem_of_sorted_items.
  by eapply list_elem_of_lookup_2.
Qed.
End series_facts.

(** ** The grouping aggregator *)

Lemma sum_Permutation (l1 l2 : list Z) :
  l1 ≡ₚ l2 → foldr Z.add 0 l1 = foldr Z.add 0 l2.
Proof. induction 1; simpl; lia. Qed.

Section aggregator_facts.
Import Py Main.
Context `{Countable K}.

Lemma total_empty : total (∅ : gmap K Z) = 0.
Proof. unfold total, items. by rewrite map_to_list_empty. Qed.

Lemma total_insert_fresh (m : gmap K Z) (g : K) (n : Z) :
  m !! g = None → total (<[g:=n]> m) = n + total m.
Proof.
  intros Hg. unfold total, items.
  by rewrite (sum_Permutation _ _
    (fmap_Permutation snd _ _ (map_to_list_insert m g n Hg))).
Qed.

(** [mapped[g] += n] adds [n] to the sum of the values. *)
Lemma total_add (m : gmap K Z) (g : K) (n : Z) :
  total (<[g := default 0 (m !! g) + n]> m) = total m + n.
Proof.
  destruct (m !! g) as [x|] eqn:Hg; simpl.
  - rewrite <- (insert_delete_eq m g (x + n)).
    rewrite <- (insert_delete_id m g x Hg) at 2.
    rewrite !total_insert_fresh by apply lookup_delete_eq. lia.
  - rewrite total_insert_fresh by done. lia.
Qed.

Variable map : string → result K.

(** Enough for the loop to return: every key classifies and every value
    coerces; the sum then grows by the sum of the coerced values. *)
Lemma mapped_loop_Ok (data : list (string * value)) :
  ∀ (m : gmap K Z) (ns : list Z),
    Forall (λ k, is_Ok (map k)) (keys data) →
    mapM int (values data) = Ok ns →
    ∃ m', mapped_loop map m data = Ok m'
          ∧ total m' = total m + foldr Z.add 0 ns.
Proof.
  induction data as [|[k v] data IH]; simpl; intros m ns Hk Hv.
  - injection Hv as <-. exists m. split; [done | simpl; lia].
  - apply Forall_cons in Hk as [[g Hg] Hk].
    apply bind_Ok in Hv as (n & Hn & Hv).
    apply bind_Ok in Hv as (ns' & Hns & [= <-]).
    rewrite Hg, Hn. simpl.
    destruct (IH (<[g := default 0 (m !! g) + n]> m) ns' Hk Hns)
      as (m' & Hm' & Ht).
    exists m'. split; [done|]. rewrite Ht, total_add. simpl. lia.
Qed.

(** Whenever the loop returns, every key classified, every value coerced,
    and the sum grew by the sum of the coerced values. *)
Lemma mapped_loop_Ok_inv (data : list (string * value)) :
  ∀ (m m' : gmap K Z),
    mapped_loop map m data = Ok m' →
    Forall (λ k, is_Ok (map k)) (keys data)
    ∧ ∃ ns, mapM int (values data) = Ok ns
            ∧ total m' = total m + foldr Z.add 0 ns.
Proof.
  induction data as [|[k v] data IH]; simpl; intros m m' Hm.
  - injection Hm as <-. split; [constructor|]. exists []. simpl.
    split; [done | lia].
  - apply bind_Ok in Hm as (g & Hg & Hm).
    apply bind_Ok in Hm as (n & Hn & Hm).
    destruct (IH _ _ Hm) as (Hk & ns & Hns & Ht).
    split; [constructor; [by exists g | done]|].
    exists (n :: ns). rewrite Hn, Ht, total_add. simpl. rewrite Hns. simpl.
    split; [done | lia].
Qed.

(** An exception of the loop is the exception of a classification or of
    a coercion. *)
Lemma mapped_loop_Raise_inv (data : list (string * value)) :
  ∀ (m : gmap K Z) (e : exn),
    mapped_loop map m data = Raise e →
    (∃ k, k ∈ keys data ∧ map k = Raise e)
    ∨ (∃ v, v ∈ values data ∧ int v = Raise e).
Proof.
  induction data as [|[k v] data IH]; simpl; intros m e Hm; [done|].
  apply bind_Raise in Hm as [Hg|(g & Hg & Hm)].
  { left. exists k. split; [left | done]. }
  apply bind_Raise in Hm as [Hn|(n & Hn & Hm)].
  { right. exists v. split; [left | done]. }
  destruct (IH _ _ Hm) as [(k' & ? & ?)|(v' & ? & ?)].
  - left. exists k'. split; [by right | done].
  - right. exists v'. split; [by right | done].
Qed.

(** A key that does not classify makes the loop raise. *)
Lemma mapped_loop_bad_key (data : list (string * value)) (k : string) :
  k ∈ keys data → ¬ is_Ok (map k) →
  ∀ m : gmap K Z, ¬ is_Ok (mapped_loop map m data).
Proof.
  intros Hk Hbad m [m' Hm']. apply mapped_loop_Ok_inv in Hm' as [Hall _].
  rewrite Forall_forall in Hall. by apply Hbad, Hall.
Qed.
End aggregator_facts.

(** ** [strptime] *)

Section strptime_facts.
Import Py DateTime.

Lemma one_length lo hi l v r :
  one lo hi l = Some (v, r) → length l = S (length r).
Proof.
  destruct l as [|c l]; simpl; [done|].
  destruct (in_range lo hi c); [|done]. by intros [= _ <-].
Qed.

Lemma two_length lo1 hi1 lo2 hi2 l v r :
  two lo1 hi1 lo2 hi2 l = Some (v, r) → length l = S (S (length r)).
Proof.
  unfold two. intros Ht.
  destruct (one lo1 hi1 l) as [[a l1]|] eqn:E1; simpl in Ht; [|done].
  destruct (one lo2 hi2 l1) as [[b l2]|] eqn:E2; simpl in Ht; [|done].
  injection Ht as _ <-.
  apply one_length in E1, E2. lia.
Qed.

Lemma literal_length c l r : literal c l = Some r → length l = S (length r).
Proof.
  destruct l as [|c' l]; simpl; [done|].
  destruct (Ascii.eqb c c'); [|done]. by intros [= <-].
Qed.

Lemma match_Y_length l v r :
  match_Y l = Some (v, r) → length l = (4 + length r)%nat.
Proof.
  unfold match_Y. intros Ht.
  destruct (two _ _ _ _ l) as [[a l1]|] eqn:E1; simpl in Ht; [|done].
  destruct (two _ _ _ _ l1) as [[b l2]|] eqn:E2; simpl in Ht; [|done].
  injection Ht as _ <-.
  apply two_length in E1, E2. lia.
Qed.

Lemma first_match_elem {A} (alts : list (option A)) (x : A) :
  first_match alts = Some x → Some x ∈ alts.
Proof.
  induction alts as [|[a|] alts IH]; simpl; [done| |].
  - intros [= ->]. left.
  - intros Hx. right. by apply IH.
Qed.

Lemma match_m_length l v r :
  match_m l = Some (v, r) → (1 + length r ≤ length l)%nat.
Proof.
  intros Ht. apply first_match_elem in Ht.
  repeat (apply elem_of_cons in Ht as [Ht|Ht]); symmetry in Ht || idtac.
  - apply two_length in Ht. lia.
  - apply two_length in Ht. lia.
  - apply one_length in Ht. lia.
  - by apply elem_of_nil in Ht.
Qed.

Lemma match_d_length l v r :
  match_d l = Some (v, r) → (1 + length r ≤ length l)%nat.
Proof.
  intros Ht. apply first_match_elem in Ht.
  repeat (apply elem_of_cons in Ht as [Ht|Ht]); symmetry in Ht || idtac.
  - apply two_length in Ht. lia.
  - apply two_length in Ht. lia.
  - apply two_length in Ht. lia.
  - apply one_length in Ht. lia.
  - destruct (literal " " l) as [l1|] eqn:E; simpl in Ht; [|done].
    apply literal_length in E. apply one_length in Ht. lia.
  - by apply elem_of_nil in Ht.
Qed.

Lemma match_format_length l y m d r :
  match_format l = Some (y, m, d, r) → (8 + length r ≤ length l)%nat.
Proof.
  unfold match_format. intros Ht.
  destruct (match_Y l) as [[y' l1]|] eqn:EY; simpl in Ht; [|done].
  destruct (literal "-" l1) as [l2|] eqn:E1; simpl in Ht; [|done].
  destruct (match_m l2) as [[m' l3]|] eqn:Em; simpl in Ht; [|done].
  destruct (literal "-" l3) as [l4|] eqn:E2; simpl in Ht; [|done].
  destruct (match_d l4) as [[d' l5]|] eqn:Ed; simpl in Ht; [|done].
  injection Ht as _ _ _ <-.
  apply match_Y_length in EY. apply literal_length in E1, E2.
  apply match_m_length in Em. apply match_d_length in Ed. lia.
Qed.

Lemma length_list_ascii (x : string) :
  length (list_ascii_of_string x) = String.length x.
Proof. induction x; simpl; congruence. Qed.

(** Every failure of [strptime] is a [ValueError]. *)
Lemma strptime_Raise (x : string) (e : exn) :
  strptime x = Raise e → e = ValueError_strptime.
Proof.
  unfold strptime, new_date.
  destruct (match_format _) as [[[[y m] d] [|c r]]|]; try by intros [= <-].
  destruct (_ && _); [done | by intros [= <-]].
Qed.

(** The shortest accepted key has eight characters, as in [2024-1-5]. *)
Lemma strptime_short (x : string) :
  (String.length x < 8)%nat → strptime x = Raise ValueError_strptime.
Proof.
  intros Hlen. unfold strptime.
  destruct (match_format _) as [[[[y m] d] [|c r]]|] eqn:E; try done.
  apply match_format_length in E. rewrite length_list_ascii in E.
  simpl in E. lia.
Qed.

Lemma weekday_id_Raise (x : string) (e : exn) :
  Main.weekday_id x = Raise e → e = ValueError_strptime.
Proof.
  unfold Main.weekday_id. intros Hw.
  apply bind_Raise in Hw as [Hw|(d & _ & Hw)]; [|done].
  by eapply strptime_Raise.
Qed.

Lemma weekday_id_is_Ok (x : string) :
  is_Ok (Main.weekday_id x) ↔ is_Ok (strptime x).
Proof.
  unfold Main.weekday_id. destruct (strptime x) as [d|e]; simpl.
  - split; intros _; apply is_Ok_Ok.
  - split; intros []; done.
Qed.
End strptime_facts.

(** ** Reports *)

Section report_facts.
Import Py.
Context {A B : Type}.

Lemma lift_Ok_bind (a : A) (f : A → report B) : lift (Ok a) ≫= f = f a.
Proof. unfold mbind, report_bind. simpl. by destruct (f a). Qed.

Lemma lift_Raise_bind (e : exn) (f : A → report B) :
  lift (Raise e) ≫= f = Report [] (Raise e).
Proof. done. Qed.

Lemma LOG_info_bind (line : string) (f : unit → report B) :
  LOG_info line ≫= f = Report (line :: emitted (f ())) (outcome (f ())).
Proof. done. Qed.
End report_facts.

Section value_facts.
Import Py Main.

Lemma mapM_int_Ok (vs : list value) :
  Forall (λ v, is_Ok (int v)) vs → is_Ok (mapM int vs).
Proof.
  induction 1 as [|v vs [n Hn] _ [ns Hns]]; simpl.
  - apply is_Ok_Ok.
  - rewrite Hn. simpl. rewrite Hns. apply is_Ok_Ok.
Qed.

(** A string among the values stops the [v > 0] filter. *)
Lemma positive_of_str (vs : list value) (s : string) :
  VStr s ∈ vs → positive_of vs = Raise TypeError.
Proof.
  induction vs as [|v vs IH]; intros Hin; [by apply elem_of_nil in Hin|].
  simpl. destruct v as [n|s']; [|done]. simpl.
  apply elem_of_cons in Hin as [?|Hin]; [done|]. by rewrite IH.
Qed.

Lemma positive_of_none (vs : list value) :
  Forall not_positive_int vs → positive_of vs = Ok [].
Proof.
  induction 1 as [|v vs (n & -> & Hn) _ IH]; simpl; [done|].
  rewrite IH. simpl. by destruct (Z.ltb_spec 0 n); [lia|].
Qed.

Lemma int_of_positive_none (vs : list value) :
  Forall not_positive_int vs → int_of_positive vs = Ok [].
Proof.
  induction 1 as [|v vs (n & -> & Hn) _ IH]; simpl; [done|].
  by destruct (Z.ltb_spec 0 n); [lia|].
Qed.

Lemma min_from_elem (l : list string) :
  ∀ best, min_from best l ∈ best :: l.
Proof.
  induction l as [|x l IH]; simpl; intros best; [left|].
  pose proof (IH (if String.ltb x best then x else best)) as Hm.
  apply elem_of_cons in Hm as [->|Hm]; [|right; by right].
  destruct (String.ltb x best); [right; left | left].
Qed.

Lemma max_from_elem (l : list string) :
  ∀ best, max_from best l ∈ best :: l.
Proof.
  induction l as [|x l IH]; simpl; intros best; [left|].
  pose proof (IH (if String.ltb best x then x else best)) as Hm.
  apply elem_of_cons in Hm as [->|Hm]; [|right; by right].
  destruct (String.ltb best x); [right; left | left].
Qed.

Lemma truediv_Raise (a b : Z) (e : exn) :
  Float.truediv a b = Raise e → e = ZeroDivisionError ∨ e = OverflowError.
Proof.
  unfold Float.truediv. destruct (b =? 0); [intros [= <-]; by left|].
  destruct (SFdiv _ _ _ _); try done. intros [= <-]. by right.
Qed.

Lemma truediv_zero (a : Z) : Float.truediv a 0 = Raise ZeroDivisionError.
Proof. done. Qed.

(** [0 / b] is a zero with the sign of [b]. *)
Lemma truediv_zero_num (b : Z) :
  b ≠ 0 → Float.truediv 0 b = Ok (S754_zero (b <? 0)).
Proof.
  intros Hb. unfold Float.truediv. rewrite (proj2 (Z.eqb_neq b 0) Hb).
  by destruct b.
Qed.

(** [a / a] is [1.0]: the quotient of the scaled mantissas is [2^53] with
    no remainder, whatever the mantissa. *)
Lemma truediv_self (a : Z) :
  a ≠ 0 → Float.truediv a a = Ok (S754_finite false (2 ^ 52) (-52)).
Proof.
  intros Ha. unfold Float.truediv. rewrite (proj2 (Z.eqb_neq a 0) Ha).
  assert (∀ (s : bool) (p : positive),
            SFdiv Float.prec Float.emax (S754_finite s p 0) (S754_finite s p 0)
            = S754_finite false (2 ^ 52) (-52)) as Hdiv.
  { intros s p. unfold SFdiv, SFdiv_core_binary.
    replace (Zdigits2 (Z.pos p) + 0 - (Zdigits2 (Z.pos p) + 0)) with 0 by lia.
    change (Z.min (fexp Float.prec Float.emax 0) (0 - 0)) with (-53).
    change (0 - 0 - -53) with 53.
    cbv iota beta.
    pose proof (Z.div_eucl_eq (Z.shiftl (Z.pos p) 53) (Z.pos p) ltac:(lia))
      as Heq.
    pose proof (Z.mod_pos_bound (Z.shiftl (Z.pos p) 53) (Z.pos p) ltac:(lia))
      as Hbound.
    unfold Z.modulo in Hbound.
    destruct (Z.div_eucl (Z.shiftl (Z.pos p) 53) (Z.pos p)) as [q r].
    rewrite Z.shiftl_mul_pow2 in Heq by lia.
    set (t := 2 ^ 53) in *.
    assert (q = t) as -> by nia.
    assert (r = 0) as -> by lia.
    unfold new_location. rewrite xorb_nilpotent.
    by destruct (Z.even (Z.pos p)). }
  destruct a as [|p|p]; [done|..]; unfold Float.exact; by rewrite Hdiv.
Qed.

Lemma np_mean_nil : Float.np_mean [] = Ok S754_nan.
Proof. done. Qed.
End value_facts.

(** ** The runtime model on known values *)

Section known_values.
Import Py Float DateTime Main.

(** 2024-01-01 was a Monday and 2024-01-07 a Sunday; 1970-01-01 is day
    719163 of the proleptic Gregorian calendar. *)
Example weekday_of_known_dates :
  weekday_id "2024-01-01" = Ok 0 ∧ weekday_id "2024-01-07" = Ok 6
  ∧ toordinal <$> strptime "1970-01-01" = Ok 719163.
Proof. by vm_compute. Qed.

Example strptime_rejects :
  strptime "2024-02-30" = Raise ValueError_strptime
  ∧ strptime "2024-01-011" = Raise ValueError_strptime
  ∧ strptime "24-01-01" = Raise ValueError_strptime.
Proof. by vm_compute. Qed.

Example int_of_known_strings :
  int (VStr " 1_000 ") = Ok 1000 ∧ int (VStr "-7") = Ok (-7)
  ∧ int (VStr "1__0") = Raise ValueError_int
  ∧ int (VStr "3.5") = Raise ValueError_int
  ∧ int (VStr EmptyString) = Raise ValueError_int.
Proof. by vm_compute. Qed.

(** [1/4] prints as [0.2] (the tie goes to the even digit), [3/4] as
    [0.8], [2/3*100] as [66.7]; [0/-5] is the negative zero. *)
Example format_of_known_floats :
  format_1f <$> truediv 1 4 = Ok "0.2"
  ∧ format_1f <$> truediv 3 4 = Ok "0.8"
  ∧ (λ x, format_1f (mul_int x 100)) <$> truediv 2 3 = Ok "66.7"
  ∧ format_1f <$> truediv 0 (-5) = Ok "-0.0"
  ∧ truediv (10 ^ 400) 1 = Raise OverflowError.
Proof. by vm_compute. Qed.

Example format_of_known_ints :
  format_comma_d 1234567 = "1,234,567"
  ∧ replace_comma (format_comma_d 1234567) = "1'234'567"
  ∧ format_comma_d (-1000) = "-1,000" ∧ format_comma_d 999 = "999".
Proof. by vm_compute. Qed.

(** With no like, one pass and a match count beyond the float range, the
    ratio of matches to swipes overflows before the ratio to likes is
    reached. *)
Example swipes_total_overflow :
  outcome (swipes_total [] [("2024-01-01", VInt 1)]
                        [("2024-01-01", VInt (10 ^ 400))])
  = Raise OverflowError.
Proof. by vm_compute. Qed.

End known_values.

(** * The claims *)

Section claims.
Import Py Float DateTime Main.

(** C1 (conservation of the total).  For every classification function
    [map] and every mapping [data] whose keys all classify and whose values
    coerce through [int()] to [ns], [_get_mapped_sum] returns a grouped
    mapping, and the sum of its values equals the sum of [ns]. *)
Theorem get_mapped_sum_conserves_total `{Countable K}
    (map : string → result K) (data : list (string * value)) (ns : list Z) :
  Forall (λ k, is_Ok (map k)) (keys data) →
  mapM int (values data) = Ok ns →
  ∃ m, _get_mapped_sum map data = Ok m ∧ total m = foldr Z.add 0 ns.
Proof.
  intros Hk Hv.
  destruct (mapped_loop_Ok map data ∅ ns Hk Hv) as (m & Hm & Ht).
  exists m. split; [done|]. by rewrite Ht, total_empty.
Qed.

Lemma get_mapped_sum_conserves_total_witness :
  ∃ m, _get_mapped_sum month_id
         [("2024-01-01", VInt 1); ("2024-01-15", VStr "2");
          ("2024-02-01", VInt 4)] = Ok m
       ∧ total m = foldr Z.add 0 [1; 2; 4].
Proof.
  apply (get_mapped_sum_conserves_total month_id).
  - repeat constructor; apply is_Ok_Ok.
  - reflexivity.
Defined.

(** C2, as stated, fails: the month classifier is the slice [x[0:7]], which
    accepts a four-character key and groups under it, and [strptime] parses
    the eight-character key [2024-1-5] (a Friday). *)
Lemma short_keys_are_grouped :
  (String.length "2024" < 10)%nat
  ∧ _get_mapped_sum month_id [("2024", VInt 1)] = Ok {["2024" := 1]}
  ∧ (String.length "2024-1-5" < 10)%nat
  ∧ _get_mapped_sum weekday_id [("2024-1-5", VInt 1)] = Ok {[4 := 1]}.
Proof.
  split; [simpl; lia|]. split; [by vm_compute|].
  split; [simpl; lia|]. by vm_compute.
Qed.

(** C2 (amended).  When a key of [data] is shorter than eight characters
    or, more generally, is rejected by [strptime] for [%Y-%m-%d], and every
    value coerces through [int()], the aggregator with the weekday
    classifier raises the [ValueError] of [strptime], while with the month
    classifier it returns a grouped mapping. *)
Theorem weekday_key_format_error (data : list (string * value)) (k : string) :
  k ∈ keys data →
  (String.length k < 8)%nat ∨ ¬ is_Ok (strptime k) →
  Forall (λ v, is_Ok (int v)) (values data) →
  _get_mapped_sum weekday_id data = Raise ValueError_strptime
  ∧ is_Ok (_get_mapped_sum month_id data).
Proof.
  intros Hk Hbad Hv. split.
  - assert (¬ is_Ok (weekday_id k)) as Hw.
    { rewrite weekday_id_is_Ok. destruct Hbad as [Hlen|?]; [|done].
      rewrite (strptime_short k Hlen). apply not_is_Ok_Raise. }
    pose proof (mapped_loop_bad_key weekday_id data k Hk Hw ∅) as Hno.
    unfold _get_mapped_sum.
    destruct (mapped_loop weekday_id ∅ data) as [m|e] eqn:E.
    { destruct Hno. apply is_Ok_Ok. }
    apply mapped_loop_Raise_inv in E as [(k' & _ & He)|(v & Hin & He)].
    + by rewrite (weekday_id_Raise _ _ He).
    + rewrite Forall_forall in Hv. destruct (Hv v Hin) as [n Hn]. congruence.
  - destruct (mapM_int_Ok _ Hv) as [ns Hns].
    destruct (mapped_loop_Ok month_id data ∅ ns) as (m & Hm & _);
      [|done|by exists m].
    apply Forall_forall. intros. apply is_Ok_Ok.
Qed.

Lemma weekday_key_format_error_witness :
  _get_mapped_sum weekday_id [("2024-01-01", VInt 1); ("2024", VStr "2")]
    = Raise ValueError_strptime
  ∧ is_Ok (_get_mapped_sum month_id
             [("2024-01-01", VInt 1); ("2024", VStr "2")]).
Proof.
  apply (weekday_key_format_error _ "2024").
  - right. left.
  - left. simpl. lia.
  - repeat constructor; apply is_Ok_Ok.
Defined.

(** C3 (series builder).  For every grouped mapping the two sequences have
    equal length, which is the number of keys of the mapping; the keys are
    strictly ascending (hence without duplicates) and are exactly the keys
    of the mapping; every key of the mapping stands at some index, with
    its value at the same index of the values; the value at each index is
    the mapping's value for the key at that index; and the result depends
    on the mapping's items only: every listing [l] of the same items gives
    the same pair. *)
Theorem series_sorted_parallel `{Countable K, PyOrd K} (m : gmap K Z) :
  length (series m).1 = length (series m).2
  ∧ length (series m).1 = size m
  ∧ StronglySorted py_lt (series m).1
  ∧ NoDup (series m).1
  ∧ (∀ k, k ∈ (series m).1 ↔ is_Some (m !! k))
  ∧ (∀ k v, m !! k = Some v →
       ∃ i, (series m).1 !! i = Some k ∧ (series m).2 !! i = Some v)
  ∧ (∀ i k, (series m).1 !! i = Some k → (series m).2 !! i = m !! k)
  ∧ (∀ l, l ≡ₚ items m → _split_tuples (sorted l) = series m).
Proof.
  assert (∀ k v, m !! k = Some v →
            ∃ i, (series m).1 !! i = Some k ∧ (series m).2 !! i = Some v)
    as Hplaced.
  { intros k v Hkv. apply elem_of_sorted_items in Hkv.
    apply list_elem_of_lookup_1 in Hkv as [i Hi]. exists i.
    unfold series, _split_tuples. simpl. by rewrite !list_lookup_fmap, Hi. }
  split; [|split; [|split; [|split; [|split; [|split; [|split]]]]]].
  - unfold series, _split_tuples. simpl. by rewrite !length_fmap.
  - unfold series, _split_tuples. simpl.
    rewrite length_fmap, sorted_Permutation. unfold items.
    apply length_map_to_list.
  - apply keys_strictly_sorted;
      [apply sorted_items_NoDup | apply sorted_StronglySorted].
  - apply sorted_items_NoDup.
  - intros k. split.
    + intros [i Hi]%list_elem_of_lookup_1.
      rewrite <- (series_lookup m i k Hi).
      apply lookup_lt_is_Some. apply lookup_lt_Some in Hi.
      unfold series, _split_tuples in *. simpl in *.
      rewrite length_fmap in Hi. by rewrite length_fmap.
    + intros [v Hv]. destruct (Hplaced k v Hv) as (i & Hi & _).
      by eapply list_elem_of_lookup_2.
  - exact Hplaced.
  - apply series_lookup.
  - intros l Hl. unfold series. by rewrite (sorted_unique _ _ Hl).
Qed.

(** C10 (faithful decomposition).  For every grouped mapping, the pair at
    each index of the output is an item of the mapping, the zipped output
    has exactly the mapping's items, and rebuilding a mapping from the
    zipped output gives the input back. *)
Theorem series_zip_faithful `{Countable K, PyOrd K} (m : gmap K Z) :
  (∀ i k v, (series m).1 !! i = Some k → (series m).2 !! i = Some v →
            m !! k = Some v)
  ∧ (∀ k v, (k, v) ∈ zip (series m).1 (series m).2 ↔ m !! k = Some v)
  ∧ zip (series m).1 (series m).2 ≡ₚ items m
  ∧ list_to_map (zip (series m).1 (series m).2) = m.
Proof.
  assert (zip (series m).1 (series m).2 = sorted (items m)) as Hz
    by apply zip_fst_snd.
  split; [|split; [|split]].
  - intros i k v Hk Hv. by rewrite <- (series_lookup m i k Hk).
  - intros k v. rewrite Hz. apply elem_of_sorted_items.
  - rewrite Hz. apply sorted_Permutation.
  - rewrite Hz. rewrite <- (list_to_map_to_list m) at 2.
    apply list_to_map_proper; [apply sorted_items_NoDup|].
    apply sorted_Permutation.
Qed.

(** C4, as stated, fails: with one day and no open on it, the mean of the
    empty list is NaN; nothing is raised and the line reads [nan]. *)
Lemma general_info_unused_day_logs_nan :
  general_info [("2024-01-01", VInt 0)]
  = Report ["--- General Info ---"; "Start Date: 2024-01-01";
            "End Date:   2024-01-01"; "Days:       0"; "  - used:   0";
            "  - unused: 0"; "Av. app-open per usage-day: nan"; EmptyString]
           (Ok ()).
Proof. by vm_compute. Qed.

(** C4 (amended).  When no entry of [app_opens] has a positive count (the
    counts being integers and the keys dates), [general_info] raises no
    division error: on a non-empty mapping it returns, having logged [0]
    used days and [nan] as the mean; on the empty mapping [min()] raises
    its [ValueError] before anything is logged. *)
Theorem general_info_no_used_days (app_opens : list (string * value)) :
  Forall not_positive_int (values app_opens) →
  Forall (λ k, is_Ok (strptime k)) (keys app_opens) →
  (app_opens = []
   ∧ general_info app_opens = Report [] (Raise ValueError_empty))
  ∨ (app_opens ≠ []
     ∧ outcome (general_info app_opens) = Ok ()
     ∧ ∃ pre days,
         emitted (general_info app_opens)
         = pre ++ ["  - used:   0"; "  - unused: " +:+ format_d days;
                   "Av. app-open per usage-day: nan"; EmptyString]).
Proof.
  intros Hv Hk. destruct app_opens as [|[k v] rest]; [by left|right].
  split; [done|]. unfold general_info.
  assert (is_Ok (strptime (max_from k (keys rest)))) as [hi Hhi].
  { rewrite Forall_forall in Hk. apply Hk, max_from_elem. }
  assert (is_Ok (strptime (min_from k (keys rest)))) as [lo Hlo].
  { rewrite Forall_forall in Hk. apply Hk, min_from_elem. }
  change (Py.min (keys ((k, v) :: rest))) with (Ok (min_from k (keys rest))).
  change (Py.max (keys ((k, v) :: rest))) with (Ok (max_from k (keys rest))).
  rewrite !lift_Ok_bind, (positive_of_none _ Hv), lift_Ok_bind.
  rewrite Hhi, lift_Ok_bind, Hlo, lift_Ok_bind.
  rewrite (int_of_positive_none _ Hv).
  rewrite !LOG_info_bind, lift_Ok_bind, np_mean_nil, lift_Ok_bind.
  split; [done|].
  eexists [_; _; _; _], _. reflexivity.
Qed.

Lemma general_info_no_used_days_witness :
  ([("2024-01-01", VInt 0); ("2024-01-03", VInt 0)] = []
   ∧ general_info [("2024-01-01", VInt 0); ("2024-01-03", VInt 0)]
     = Report [] (Raise ValueError_empty))
  ∨ ([("2024-01-01", VInt 0); ("2024-01-03", VInt 0)] ≠ []
     ∧ outcome (general_info [("2024-01-01", VInt 0); ("2024-01-03", VInt 0)])
       = Ok ()
     ∧ ∃ pre days,
         emitted (general_info [("2024-01-01", VInt 0); ("2024-01-03", VInt 0)])
         = pre ++ ["  - used:   0"; "  - unused: " +:+ format_d days;
                   "Av. app-open per usage-day: nan"; EmptyString]).
Proof.
  apply general_info_no_used_days.
  - repeat constructor; exists 0; (split; [reflexivity | lia]).
  - repeat constructor; eexists; vm_compute; reflexivity.
Defined.

(** C5 (zero swipes or zero likes).  With integer counts whose totals are
    [tl] likes, [tp] passes and [tm] matches, if the swipes or the likes
    total zero then [swipes_total] ends in an exception raised by a
    division, never in a result, and what it has logged by then is fixed
    line by line.  With zero swipes the first ratio raises
    [ZeroDivisionError] and the log holds the header and [Total Swipes: 0].
    With zero likes and some passes the log holds the header, the total,
    the passes at [100.0%] and the likes at [0.0%], which is the value of
    [0 / swipes] and not a stand-in for a failed division ([-0.0%] for a
    negative total); the matches line, which holds the ratio to the
    likes, is not logged: computing it raises [ZeroDivisionError], unless
    the ratio of the matches to the swipes is already too large for a
    float and raises [OverflowError].  No line holds a ratio whose
    denominator is zero. *)
Theorem swipes_total_fails_loud
    (likes passes matches : list (string * value)) (tl tp tm : Z) :
  Py.sum (values likes) = Ok tl →
  Py.sum (values passes) = Ok tp →
  Py.sum (values matches) = Ok tm →
  tl + tp = 0 ∨ tl = 0 →
  ∃ e, outcome (swipes_total likes passes matches) = Raise e
       ∧ (e = ZeroDivisionError ∨ e = OverflowError)
       ∧ Forall (λ line, String.prefix "- Matches" line = false)
                (emitted (swipes_total likes passes matches))
       ∧ (tl + tp = 0 →
          swipes_total likes passes matches
          = Report ["--- Swipe Statistics ---"; "Total Swipes: 0"]
                   (Raise ZeroDivisionError))
       ∧ (tl + tp ≠ 0 →
          emitted (swipes_total likes passes matches)
          = ["--- Swipe Statistics ---";
             replace_comma ("Total Swipes: " +:+ format_comma_d tp);
             replace_comma ("- Passes: " +:+ format_comma_d tp +:+ " (100.0%)");
             if tp <? 0 then "- Likes: 0 (-0.0%)" else "- Likes: 0 (0.0%)"]
          ∧ (is_Ok (truediv tm tp) → e = ZeroDivisionError)).
Proof.
  intros Hl Hp Hm Hz. unfold swipes_total.
  rewrite Hl, lift_Ok_bind, Hp, lift_Ok_bind, Hm, lift_Ok_bind.
  rewrite !LOG_info_bind.
  destruct (decide (tl + tp = 0)) as [->|Hs].
  { exists ZeroDivisionError. rewrite truediv_zero. simpl.
    repeat split; auto; try done; repeat constructor. }
  destruct Hz as [?| ->]; [done|].
  rewrite !Z.add_0_l in *.
  rewrite (truediv_self tp Hs), lift_Ok_bind, LOG_info_bind.
  rewrite (truediv_zero_num tp Hs), lift_Ok_bind, LOG_info_bind.
  change (format_1f (mul_int (S754_finite false (2 ^ 52) (-52)) 100))
    with "100.0".
  assert (replace_comma
            ("- Likes: " +:+ format_comma_d 0 +:+ " ("
             +:+ format_1f (mul_int (S754_zero (tp <? 0)) 100) +:+ "%)")
          = if tp <? 0 then "- Likes: 0 (-0.0%)" else "- Likes: 0 (0.0%)")
    as -> by (by destruct (tp <? 0)).
  assert (∀ b : bool,
            String.prefix "- Matches"
              (if b then "- Likes: 0 (-0.0%)" else "- Likes: 0 (0.0%)")
            = false) as Hlikes by (by intros []).
  destruct (truediv tm tp) as [ms|e] eqn:Ems.
  - rewrite lift_Ok_bind, truediv_zero. exists ZeroDivisionError.
    split; [done|]. split; [by left|]. split; [by repeat constructor|].
    split; [done|]. by intros _.
  - exists e. split; [done|]. split; [by eapply truediv_Raise|].
    split; [by repeat constructor|]. split; [done|]. intros _.
    split; [done|]. by intros [? ?].
Qed.

Lemma swipes_total_fails_loud_witness :
  ∃ e, outcome (swipes_total [("2024-01-01", VInt 0)]
                  [("2024-01-01", VInt 5)] [("2024-01-01", VInt 2)]) = Raise e
       ∧ (e = ZeroDivisionError ∨ e = OverflowError)
       ∧ Forall (λ line, String.prefix "- Matches" line = false)
                (emitted (swipes_total [("2024-01-01", VInt 0)]
                   [("2024-01-01", VInt 5)] [("2024-01-01", VInt 2)]))
       ∧ (0 + 5 = 0 →
          swipes_total [("2024-01-01", VInt 0)]
            [("2024-01-01", VInt 5)] [("2024-01-01", VInt 2)]
          = Report ["--- Swipe Statistics ---"; "Total Swipes: 0"]
                   (Raise ZeroDivisionError))
       ∧ (0 + 5 ≠ 0 →
          emitted (swipes_total [("2024-01-01", VInt 0)]
                     [("2024-01-01", VInt 5)] [("2024-01-01", VInt 2)])
          = ["--- Swipe Statistics ---"; "Total Swipes: 5";
             "- Passes: 5 (100.0%)"; "- Likes: 0 (0.0%)"]
          ∧ (is_Ok (truediv 2 5) → e = ZeroDivisionError)).
Proof.
  apply (swipes_total_fails_loud _ _ _ 0 5 2);
    [reflexivity | reflexivity | reflexivity | by right].
Defined.

(** C6 (worked example of the swipe totals).  For 10 likes, 5 passes and
    2 matches on one day, [swipes_total] logs 15 swipes, likes at 66.7% of
    the swipes, matches at 13.3% of the swipes and 20.0% of the likes, and
    returns. *)
Theorem swipes_total_example :
  swipes_total [("2024-01-01", VInt 10)] [("2024-01-01", VInt 5)]
               [("2024-01-01", VInt 2)]
  = Report ["--- Swipe Statistics ---"; "Total Swipes: 15";
            "- Passes: 5 (33.3%)"; "- Likes: 10 (66.7%)";
            "- Matches: 2 (13.3% of swipes, 20.0% of likes)"; EmptyString]
           (Ok ()).
Proof. by vm_compute. Qed.

(** C7 (empty message history).  On an empty mapping the grouping step
    returns the empty grouped mapping under either classifier, its series
    are the two empty sequences, and [messages_total] on two empty mappings
    logs 0 sent and 0 received and returns. *)
Theorem empty_messages_do_not_raise :
  _get_mapped_sum month_id [] = Ok ∅
  ∧ _get_mapped_sum weekday_id [] = Ok ∅
  ∧ grouped_series month_id [] = Ok ([], [])
  ∧ grouped_series weekday_id [] = Ok ([], [])
  ∧ messages_total [] []
    = Report ["--- Message Statistics ---"; "Send:     0"; "Received: 0"; EmptyString]
             (Ok ()).
Proof. repeat split; by vm_compute. Qed.

(** C8 (worked example of the general information).  For one open on
    2024-01-01, none on 2024-01-02 and one on 2024-01-03, [general_info]
    logs a span of 2 days, 2 used days, 0 unused days and a mean of 1.0
    opens per used day, and returns. *)
Theorem general_info_example :
  general_info [("2024-01-01", VInt 1); ("2024-01-02", VInt 0);
                ("2024-01-03", VInt 1)]
  = Report ["--- General Info ---"; "Start Date: 2024-01-01";
            "End Date:   2024-01-03"; "Days:       2"; "  - used:   2";
            "  - unused: 0"; "Av. app-open per usage-day: 1.0"; EmptyString]
           (Ok ()).
Proof. by vm_compute. Qed.

(** C9 (string-encoded counts).  If a value of [app_opens] is a string,
    [general_info] raises [TypeError] at the comparison with zero, before
    anything is logged; yet when every value coerces through [int()] (as a
    numeric string does) the aggregator returns a grouped mapping for the
    same input. *)
Theorem general_info_string_count (app_opens : list (string * value))
    (s : string) :
  VStr s ∈ values app_opens →
  general_info app_opens = Report [] (Raise TypeError)
  ∧ (Forall (λ v, is_Ok (int v)) (values app_opens) →
     is_Ok (_get_mapped_sum month_id app_opens)).
Proof.
  intros Hs. split.
  - destruct app_opens as [|[k v] rest]; [by apply elem_of_nil in Hs|].
    unfold general_info.
    change (Py.min (keys ((k, v) :: rest))) with (Ok (min_from k (keys rest))).
    change (Py.max (keys ((k, v) :: rest))) with (Ok (max_from k (keys rest))).
    by rewrite !lift_Ok_bind, (positive_of_str _ _ Hs).
  - intros Hv. destruct (mapM_int_Ok _ Hv) as [ns Hns].
    destruct (mapped_loop_Ok month_id app_opens ∅ ns) as (m & Hm & _);
      [|done|by exists m].
    apply Forall_forall. intros. apply is_Ok_Ok.
Qed.

Lemma general_info_string_count_witness :
  general_info [("2024-01-01", VInt 1); ("2024-01-02", VStr "3")]
  = Report [] (Raise TypeError)
  ∧ _get_mapped_sum month_id [("2024-01-01", VInt 1); ("2024-01-02", VStr "3")]
    = Ok {["2024-01" := 4]}.
Proof.
  destruct (general_info_string_count
              [("2024-01-01", VInt 1); ("2024-01-02", VStr "3")] "3")
    as [Hg _].
  - right. left.
  - split; [exact Hg | by vm_compute].
Defined.

End claims.

(** * Further properties of the code *)

(** ** The grouping, group by group *)

Section grouping_more.
Import Py Main Groups.
Context `{Countable K}.
Variable map : string → result K.

Lemma members_cons (k : string) (v : value) (data : list (string * value))
    (g : K) :
  members map g ((k, v) :: data)
  = if decide (map k = Ok g) then (k, v) :: members map g data
    else members map g data.
Proof. unfold members. by rewrite filter_cons. Qed.

Lemma group_sum_cons (k : string) (v : value) (data : list (string * value))
    (g : K) :
  group_sum map g ((k, v) :: data)
  = (if decide (map k = Ok g) then coerced v else 0) + group_sum map g data.
Proof.
  unfold group_sum. rewrite members_cons. by destruct (decide _).
Qed.

Lemma group_sum_no_members (data : list (string * value)) (g : K) :
  members map g data = [] → group_sum map g data = 0.
Proof. unfold group_sum. by intros ->. Qed.

(** What the loop leaves under each group key. *)
Lemma mapped_loop_lookup (data : list (string * value)) :
  ∀ (m0 m : gmap K Z),
    mapped_loop map m0 data = Ok m →
    ∀ g, m !! g = if decide (members map g data = []) then m0 !! g
                  else Some (default 0 (m0 !! g) + group_sum map g data).
Proof.
  induction data as [|[k v] data IH]; simpl; intros m0 m Hm g.
  - by injection Hm as <-.
  - apply bind_Ok in Hm as (g' & Hg' & Hm).
    apply bind_Ok in Hm as (n & Hn & Hm).
    rewrite (IH _ _ Hm g), members_cons, group_sum_cons, Hg'.
    unfold coerced. rewrite Hn.
    destruct (decide (Ok g' = Ok g)) as [[= ->]|Hne].
    + rewrite lookup_insert_eq. simpl.
      destruct (decide (members map g data = [])) as [He|He].
      * rewrite (group_sum_no_members _ _ He). f_equal. lia.
      * f_equal. lia.
    + rewrite lookup_insert_ne by congruence.
      by destruct (decide (members map g data = [])).
Qed.

(** The loop returns exactly when it accepts every item. *)
Lemma mapped_loop_is_Ok (data : list (string * value)) :
  ∀ m0 : gmap K Z, is_Ok (mapped_loop map m0 data) ↔ Forall (accepted map) data.
Proof.
  induction data as [|[k v] data IH]; simpl; intros m0.
  - split; [constructor | intros _; apply is_Ok_Ok].
  - rewrite Forall_cons. unfold accepted at 1. simpl.
    destruct (map k) as [g|e]; simpl.
    2:{ split; [by intros [] | by intros [[[] _] _]]. }
    destruct (int v) as [n|e]; simpl.
    2:{ split; [by intros [] | by intros [[_ []] _]]. }
    rewrite IH. split; [intros ?; repeat split; try apply is_Ok_Ok; done|].
    by intros [_ ?].
Qed.

(** The first item that is not accepted decides the exception, its key
    before its value. *)
Lemma mapped_loop_first_error (pre post : list (string * value))
    (k : string) (v : value) (e : exn) :
  Forall (accepted map) pre →
  map k = Raise e ∨ (is_Ok (map k) ∧ int v = Raise e) →
  ∀ m0 : gmap K Z, mapped_loop map m0 (pre ++ (k, v) :: post) = Raise e.
Proof.
  intros Hpre Hbad. induction Hpre as [|[k' v'] pre [[g Hg] [n Hn]] _ IH];
    simpl; intros m0.
  - destruct Hbad as [->|[[g ->] Hv]]; [done|]. simpl. by rewrite Hv.
  - simpl in Hg, Hn. rewrite Hg, Hn. simpl. apply IH.
Qed.

Lemma members_Permutation (data data' : list (string * value)) (g : K) :
  data ≡ₚ data' → members map g data ≡ₚ members map g data'.
Proof. intros Hp. unfold members. by rewrite Hp. Qed.

Lemma group_sum_Permutation (data data' : list (string * value)) (g : K) :
  data ≡ₚ data' → group_sum map g data = group_sum map g data'.
Proof.
  intros Hp. unfold group_sum. apply sum_Permutation.
  by rewrite (members_Permutation _ _ g Hp).
Qed.

Lemma members_app (d1 d2 : list (string * value)) (g : K) :
  members map g (d1 ++ d2) = members map g d1 ++ members map g d2.
Proof. apply filter_app. Qed.

Lemma group_sum_app (d1 d2 : list (string * value)) (g : K) :
  group_sum map g (d1 ++ d2) = group_sum map g d1 + group_sum map g d2.
Proof.
  unfold group_sum. rewrite members_app, !fmap_app.
  generalize (coerced <$> (members map g d1).*2) as l1.
  induction l1 as [|x l1 IH]; simpl; lia.
Qed.

Lemma members_elem (data : list (string * value)) (g : K) :
  members map g data ≠ [] → ∃ k, k ∈ keys data ∧ map k = Ok g.
Proof.
  destruct (members map g data) as [|[k v] l] eqn:E; [done|]. intros _.
  assert ((k, v) ∈ members map g data) as Hin by (rewrite E; left).
  apply list_elem_of_filter in Hin as [Hg Hin]. exists k. split; [|done].
  by apply (list_elem_of_fmap_2 fst) in Hin.
Qed.

Lemma members_nonempty_iff (data : list (string * value)) (g : K) :
  members map g data ≠ [] ↔ ∃ k, k ∈ keys data ∧ map k = Ok g.
Proof.
  split; [apply members_elem|]. intros (k & Hk & Hg) He.
  apply list_elem_of_fmap in Hk as [[k' v] [-> Hin]].
  assert ((k', v) ∈ members map g data) as Hmem
    by by apply list_elem_of_filter.
  rewrite He in Hmem. by apply elem_of_nil in Hmem.
Qed.
End grouping_more.

Section grouping_composition.
Import Py Main Groups.
Context `{Countable K}.
Variable map : string → result K.

Lemma get_mapped_sum_lookup (data : list (string * value)) (m : gmap K Z) :
  _get_mapped_sum map data = Ok m →
  ∀ g, m !! g = if decide (members map g data = []) then None
                else Some (group_sum map g data).
Proof.
  intros Hm g. rewrite (mapped_loop_lookup map data ∅ m Hm g).
  rewrite lookup_empty. simpl. by destruct (decide _).
Qed.

Lemma get_mapped_sum_Permutation (data data' : list (string * value))
    (m : gmap K Z) :
  data ≡ₚ data' → _get_mapped_sum map data = Ok m →
  _get_mapped_sum map data' = Ok m.
Proof.
  intros Hp Hm.
  assert (is_Ok (_get_mapped_sum map data')) as [m' Hm'].
  { apply mapped_loop_is_Ok. rewrite <- Hp. apply (mapped_loop_is_Ok map data ∅).
    by exists m. }
  rewrite Hm'. f_equal. apply map_eq. intros g.
  rewrite (get_mapped_sum_lookup _ _ Hm), (get_mapped_sum_lookup _ _ Hm').
  rewrite (group_sum_Permutation map _ _ g Hp).
  pose proof (members_Permutation map _ _ g Hp) as Hmem.
  destruct (decide (members map g data = [])) as [E|E],
           (decide (members map g data' = [])) as [E'|E']; try done.
  - rewrite E in Hmem. symmetry in Hmem. by apply Permutation_nil_r in Hmem.
  - rewrite E' in Hmem. by apply Permutation_nil_r in Hmem.
Qed.

Lemma get_mapped_sum_app (d1 d2 : list (string * value)) (m1 m2 : gmap K Z) :
  _get_mapped_sum map d1 = Ok m1 → _get_mapped_sum map d2 = Ok m2 →
  _get_mapped_sum map (d1 ++ d2) = Ok (union_with (λ a b, Some (a + b)) m1 m2).
Proof.
  intros H1 H2.
  assert (is_Ok (_get_mapped_sum map (d1 ++ d2))) as [m Hm].
  { apply mapped_loop_is_Ok, Forall_app. split.
    - apply (mapped_loop_is_Ok map d1 ∅). by exists m1.
    - apply (mapped_loop_is_Ok map d2 ∅). by exists m2. }
  rewrite Hm. f_equal. apply map_eq. intros g.
  rewrite lookup_union_with.
  rewrite (get_mapped_sum_lookup _ _ Hm), (get_mapped_sum_lookup _ _ H1),
    (get_mapped_sum_lookup _ _ H2), members_app, group_sum_app.
  destruct (decide (members map g d1 = [])) as [E1|E1],
           (decide (members map g d2 = [])) as [E2|E2]; simpl.
  - rewrite E1, E2. by rewrite decide_True.
  - rewrite E1. simpl. rewrite decide_False by done.
    by rewrite (group_sum_no_members _ _ _ E1).
  - rewrite E2, app_nil_r, decide_False by done.
    rewrite (group_sum_no_members _ _ _ E2). f_equal. lia.
  - rewrite decide_False; [done|]. intros [? _]%app_eq_nil. done.
Qed.
End grouping_composition.

Section extras_grouping.
Import Py DateTime Main Groups.

(** X1 (group sums).  When [_get_mapped_sum] returns, a group key is
    present exactly when some key of the input classifies to it, and the
    value under it is the sum of the coerced values of the items that
    classify to it; a group whose counts are all zero is kept, with the
    value 0. *)
Theorem get_mapped_sum_group_sums `{Countable K} (map : string → result K)
    (data : list (string * value)) (m : gmap K Z) :
  _get_mapped_sum map data = Ok m →
  ∀ g, (is_Some (m !! g) ↔ ∃ k, k ∈ keys data ∧ map k = Ok g)
       ∧ (∀ v, m !! g = Some v → v = group_sum map g data).
Proof.
  intros Hm g. rewrite (get_mapped_sum_lookup map data m Hm g).
  rewrite <- members_nonempty_iff.
  destruct (decide (members map g data = [])) as [He|Hne].
  - split; [|done]. split; [by intros [] | by intros []].
  - split; [|by intros v [= <-]]. split; [done | by eexists].
Qed.

Lemma get_mapped_sum_group_sums_witness :
  (is_Some (({["2024-01" := 4; "2024-02" := 0]} : gmap string Z) !! "2024-02")
   ↔ ∃ k, k ∈ keys [("2024-01-01", VInt 1); ("2024-02-01", VStr "0");
                    ("2024-01-09", VInt 3)]
          ∧ month_id k = Ok "2024-02")
  ∧ (∀ v, ({["2024-01" := 4; "2024-02" := 0]} : gmap string Z) !! "2024-02"
          = Some v →
          v = group_sum month_id "2024-02"
                [("2024-01-01", VInt 1); ("2024-02-01", VStr "0");
                 ("2024-01-09", VInt 3)]).
Proof.
  apply (get_mapped_sum_group_sums month_id). by vm_compute.
Defined.

(** X2 (when the grouping returns).  [_get_mapped_sum] returns a grouped
    mapping exactly when every key classifies and every value coerces
    through [int()]. *)
Theorem get_mapped_sum_returns_iff `{Countable K} (map : string → result K)
    (data : list (string * value)) :
  is_Ok (_get_mapped_sum map data) ↔ Forall (accepted map) data.
Proof. apply mapped_loop_is_Ok. Qed.

(** X3 (which exception).  The exception of [_get_mapped_sum] is that of
    the first item, in the order of the mapping, that is not accepted: the
    exception of its classification if that raises, otherwise the
    exception of [int()] on its value; later items are not looked at. *)
Theorem get_mapped_sum_first_error `{Countable K} (map : string → result K)
    (pre post : list (string * value)) (k : string) (v : value) (e : exn) :
  Forall (accepted map) pre →
  map k = Raise e ∨ (is_Ok (map k) ∧ int v = Raise e) →
  _get_mapped_sum map (pre ++ (k, v) :: post) = Raise e.
Proof. intros Hpre Hbad. by apply mapped_loop_first_error. Qed.

Lemma get_mapped_sum_first_error_witness :
  _get_mapped_sum weekday_id
    ([("2024-01-01", VInt 1)] ++ ("2024-01-02", VStr "x") :: [("oops", VInt 1)])
  = Raise ValueError_int.
Proof.
  apply (get_mapped_sum_first_error weekday_id).
  - repeat constructor; apply is_Ok_Ok.
  - right. split; [apply is_Ok_Ok | reflexivity].
Defined.

(** X4 (order of the items).  The grouped mapping does not depend on the
    order in which the mapping lists its items. *)
Theorem get_mapped_sum_order_independent `{Countable K}
    (map : string → result K) (data data' : list (string * value))
    (m : gmap K Z) :
  data ≡ₚ data' →
  _get_mapped_sum map data = Ok m →
  _get_mapped_sum map data' = Ok m.
Proof. apply get_mapped_sum_Permutation. Qed.

Lemma get_mapped_sum_order_independent_witness :
  _get_mapped_sum month_id
    [("2024-02-01", VInt 5); ("2024-01-01", VInt 1); ("2024-01-09", VInt 3)]
  = Ok {["2024-01" := 4; "2024-02" := 5]}.
Proof.
  apply (get_mapped_sum_order_independent month_id
           [("2024-01-01", VInt 1); ("2024-01-09", VInt 3);
            ("2024-02-01", VInt 5)]).
  - symmetry. apply (Permutation_cons_append [_; _]).
  - by vm_compute.
Defined.

(** X5 (grouping two mappings).  Grouping the items of two mappings
    together returns exactly when grouping each of them returns, and gives
    the two grouped mappings merged, the values of shared group keys
    added. *)
Theorem get_mapped_sum_app_merge `{Countable K} (map : string → result K)
    (d1 d2 : list (string * value)) (m : gmap K Z) :
  _get_mapped_sum map (d1 ++ d2) = Ok m
  ↔ ∃ m1 m2, _get_mapped_sum map d1 = Ok m1
             ∧ _get_mapped_sum map d2 = Ok m2
             ∧ m = union_with (λ a b, Some (a + b)) m1 m2.
Proof.
  split.
  - intros Hm.
    assert (Forall (accepted map) (d1 ++ d2)) as [Hd1 Hd2]%Forall_app.
    { apply (mapped_loop_is_Ok map _ ∅). by exists m. }
    apply (mapped_loop_is_Ok map d1 ∅) in Hd1 as [m1 Hm1].
    apply (mapped_loop_is_Ok map d2 ∅) in Hd2 as [m2 Hm2].
    exists m1, m2. repeat split; [done..|].
    pose proof (get_mapped_sum_app map d1 d2 m1 m2 Hm1 Hm2) as Hu.
    unfold _get_mapped_sum in *. congruence.
  - intros (m1 & m2 & Hm1 & Hm2 & ->). by apply get_mapped_sum_app.
Qed.

(** X6 (weekday groups).  Grouped by weekday, the keys are ordinals from 0
    to 6, so there are at most seven groups and at most seven points in
    each series. *)
Theorem weekday_groups_at_most_seven (data : list (string * value))
    (m : gmap Z Z) :
  _get_mapped_sum weekday_id data = Ok m →
  (∀ g, is_Some (m !! g) → 0 ≤ g ≤ 6)
  ∧ (size m ≤ 7)%nat
  ∧ (length (series m).1 ≤ 7)%nat.
Proof.
  intros Hm.
  assert (∀ g, is_Some (m !! g) → 0 ≤ g ≤ 6) as Hrange.
  { intros g [v Hv]. rewrite (get_mapped_sum_lookup _ _ _ Hm) in Hv.
    destruct (decide _) as [|Hne]; [done|].
    apply members_elem in Hne as (k & _ & Hk). unfold weekday_id in Hk.
    apply bind_Ok in Hk as (d & _ & [= <-]). unfold weekday.
    pose proof (Z.mod_pos_bound (toordinal d + 6) 7). lia. }
  assert (size m ≤ 7)%nat as Hsize.
  { rewrite <- length_map_to_list, <- (length_fmap fst).
    change 7%nat with (length (seqZ 0 7)).
    apply submseteq_length, NoDup_submseteq; [apply NoDup_fst_map_to_list|].
    intros g [[g' v] [-> Hin]]%list_elem_of_fmap. simpl.
    apply elem_of_map_to_list in Hin. apply elem_of_seqZ.
    specialize (Hrange g' (ltac:(by exists v))). lia. }
  repeat split; try apply Hrange; try done.
  unfold series, _split_tuples, items. simpl.
  by rewrite length_fmap, sorted_Permutation, length_map_to_list.
Qed.

Lemma weekday_groups_at_most_seven_witness :
  (∀ g, is_Some (({[0 := 3; 1 := 2]} : gmap Z Z) !! g) → 0 ≤ g ≤ 6)
  ∧ (size ({[0%Z := 3%Z; 1%Z := 2%Z]} : gmap Z Z) ≤ 7)%nat
  ∧ (length (series ({[0%Z := 3%Z; 1%Z := 2%Z]} : gmap Z Z)).1 ≤ 7)%nat.
Proof.
  apply (weekday_groups_at_most_seven
           [("2024-01-01", VInt 1); ("2024-01-02", VInt 2);
            ("2024-01-08", VInt 2)]).
  by vm_compute.
Defined.

End extras_grouping.

(** ** [numpy.mean] *)

Section mean_facts.
Import Py Float.

Lemma pairwise_sum_upto_S (d : nat) (a : list spec_float) :
  pairwise_sum_upto (S d) a
  = if (128 <? length a)%nat then
      fadd (pairwise_sum_upto d
              (take (length a / 2 - (length a / 2) `mod` 8)%nat a))
           (pairwise_sum_upto d
              (drop (length a / 2 - (length a / 2) `mod` 8)%nat a))
    else block_sum a.
Proof. done. Qed.

Lemma pairwise_sum_upto_short (d : nat) (a : list spec_float) :
  (length a ≤ 128)%nat → pairwise_sum_upto d a = block_sum a.
Proof.
  intros Hn. destruct d; [done|]. rewrite pairwise_sum_upto_S.
  by destruct (Nat.ltb_spec 128 (length a)); [lia|].
Qed.

(** The split point of a block of more than 128 elements leaves two
    shorter blocks. *)
Lemma split_point (n : nat) :
  (128 < n)%nat →
  (0 < n / 2 - (n / 2) `mod` 8 < n)%nat.
Proof.
  intros Hn.
  pose proof (Nat.div_mod_eq n 2) as H2.
  pose proof (Nat.mod_upper_bound n 2 ltac:(done)) as B2.
  pose proof (Nat.mod_upper_bound (n / 2) 8 ltac:(done)) as B8.
  lia.
Qed.

(** Any bound from the length of the block on gives the same sum: the
    bound on the nested splits is never what ends the summation. *)
Lemma pairwise_sum_upto_enough (d1 : nat) :
  ∀ (d2 : nat) (a : list spec_float),
    (length a ≤ d1)%nat → (length a ≤ d2)%nat →
    pairwise_sum_upto d1 a = pairwise_sum_upto d2 a.
Proof.
  induction d1 as [|d1 IH]; intros d2 a H1 H2.
  { by rewrite !pairwise_sum_upto_short by lia. }
  destruct d2 as [|d2].
  { by rewrite !pairwise_sum_upto_short by lia. }
  rewrite !pairwise_sum_upto_S.
  destruct (Nat.ltb_spec 128 (length a)) as [Hn|Hn]; [|done].
  pose proof (split_point _ Hn) as Hs.
  f_equal; apply IH; rewrite ?length_take, ?length_drop; lia.
Qed.

Lemma pairwise_sum_depth (d : nat) (a : list spec_float) :
  (length a ≤ d)%nat → pairwise_sum_upto d a = pairwise_sum a.
Proof. intros Hd. by apply pairwise_sum_upto_enough. Qed.

Lemma bufsize_pos : (0 < bufsize)%nat.
Proof. unfold bufsize. lia. Qed.

(** Likewise for the number of buffers. *)
Lemma buffered_sum_upto_enough (r1 : nat) :
  ∀ (r2 : nat) (acc : spec_float) (a : list spec_float),
    (length a ≤ r1)%nat → (length a ≤ r2)%nat →
    buffered_sum_upto r1 acc a = buffered_sum_upto r2 acc a.
Proof.
  pose proof bufsize_pos as Hb.
  induction r1 as [|r1 IH]; intros r2 acc a H1 H2.
  { destruct a; [|simpl in H1; lia]. by destruct r2. }
  destruct r2 as [|r2].
  { destruct a; [done | simpl in H2; lia]. }
  destruct a as [|x a]; [done|].
  cbn [buffered_sum_upto]. apply IH; rewrite length_drop; simpl in *; lia.
Qed.

Lemma buffered_sum_rounds (r : nat) (a : list spec_float) :
  (length a ≤ r)%nat → buffered_sum_upto r zero a = buffered_sum a.
Proof. intros Hr. by apply buffered_sum_upto_enough. Qed.

Lemma discover_object (n : Z) :
  discover n = dt_object ↔ n < - 2 ^ 63 ∨ 2 ^ 64 ≤ n.
Proof.
  unfold discover.
  destruct (Z.leb_spec (- 2 ^ 63) n), (Z.ltb_spec n (2 ^ 63)),
    (Z.leb_spec (2 ^ 63) n), (Z.ltb_spec n (2 ^ 64)); simpl;
    split; try done; lia.
Qed.

Lemma promote_object (a b : dtype) :
  promote a b = dt_object ↔ a = dt_object ∨ b = dt_object.
Proof.
  destruct a, b; simpl;
    (split; [intros ?; first [done | by left | by right] | by intros [?|?]]).
Qed.

Lemma foldl_promote_object (xs : list Z) :
  ∀ d, foldl (λ d y, promote d (discover y)) d xs = dt_object
       ↔ d = dt_object ∨ Exists (λ n, discover n = dt_object) xs.
Proof.
  induction xs as [|x xs IH]; simpl; intros d.
  - rewrite Exists_nil. tauto.
  - rewrite IH, promote_object, Exists_cons. tauto.
Qed.

(** The array is an object array exactly when some element is outside
    the 64-bit range. *)
Lemma array_dtype_object (xs : list Z) :
  array_dtype xs = dt_object ↔ Exists (λ n, n < - 2 ^ 63 ∨ 2 ^ 64 ≤ n) xs.
Proof.
  assert (Exists (λ n, discover n = dt_object) xs
          ↔ Exists (λ n, n < - 2 ^ 63 ∨ 2 ^ 64 ≤ n) xs) as <-.
  { rewrite !Exists_exists. by setoid_rewrite discover_object. }
  destruct xs as [|x xs]; simpl.
  - by rewrite Exists_nil.
  - by rewrite foldl_promote_object, Exists_cons.
Qed.

(** Within the 64-bit range the mean is computed in binary64 and nothing
    is raised. *)
Lemma np_mean_returns (xs : list Z) :
  Forall (λ n, - 2 ^ 63 ≤ n < 2 ^ 64) xs → is_Ok (np_mean xs).
Proof.
  intros Hin. unfold np_mean.
  destruct (array_dtype xs) eqn:E; try apply is_Ok_Ok.
  apply array_dtype_object, Exists_exists in E as (n & Hn & Hout).
  rewrite Forall_forall in Hin. specialize (Hin n Hn). lia.
Qed.


Lemma of_int_pos_sign (p : positive) : of_int (Z.pos p) ≠ S754_zero true.
Proof.
  unfold of_int, binary_normalize, binary_round, binary_round_aux.
  destruct (shl_align _ _ _) as [mz ez].
  destruct (shr_fexp _ _ _ _ _) as [mrs e'].
  destruct (shr_fexp _ _ _ _ _) as [mrs' e''].
  destruct (shr_m mrs'); [done| |done].
  by destruct (_ <=? _).
Qed.

Lemma fadd_zero_l (x : spec_float) : x ≠ S754_zero true → fadd zero x = x.
Proof. by destruct x as [[]| | |]. Qed.

(** The mean of a single positive count below [2^64] is that count, as a
    double, divided by [1.0]. *)
Lemma np_mean_single (n : Z) :
  0 < n < 2 ^ 64 → np_mean [n] = Ok (fdiv (of_int n) (of_int 1)).
Proof.
  intros Hn. destruct n as [|p|p]; try lia.
  assert (buffered_sum [of_int (Z.pos p)] = of_int (Z.pos p)) as Hsum.
  { unfold buffered_sum. cbn [length buffered_sum_upto].
    rewrite take_ge by (pose proof bufsize_pos; simpl; lia).
    unfold pairwise_sum. cbn [length pairwise_sum_upto Nat.ltb Nat.leb].
    cbn [block_sum foldl].
    by do 2 rewrite (fadd_zero_l (of_int _)) by apply of_int_pos_sign. }
  unfold np_mean, array_dtype. cbn [foldl fmap list_fmap length].
  destruct (discover (Z.pos p)) eqn:E; rewrite ?Hsum; try done.
  - unfold discover in E. by repeat destruct (_ && _).
  - apply discover_object in E. lia.
Qed.
End mean_facts.

(** ** The report functions on integer and on string counts *)

Section counts_facts.
Import Py Float DateTime Main Groups.

Lemma int_valued_fmap (vs : list value) :
  Forall int_valued vs ↔ ∃ ns, vs = VInt <$> ns.
Proof.
  split.
  - induction 1 as [|v vs [n ->] _ [ns ->]]; [by exists []|by exists (n :: ns)].
  - intros [ns ->]. apply Forall_fmap, Forall_forall. intros n _. by exists n.
Qed.

Lemma not_int_valued (vs : list value) :
  ¬ Forall int_valued vs → ∃ s, VStr s ∈ vs.
Proof.
  induction vs as [|[n|s] vs IH]; intros Hno.
  - destruct Hno. constructor.
  - destruct IH as [s Hs].
    + intros Hall. apply Hno. constructor; [by exists n | done].
    + exists s. by right.
  - exists s. left.
Qed.

Lemma str_not_int_valued (vs : list value) (s : string) :
  VStr s ∈ vs → ¬ Forall int_valued vs.
Proof.
  intros Hs Hall. rewrite Forall_forall in Hall.
  by destruct (Hall _ Hs) as [n ?].
Qed.

Lemma sum_from_ints (ns : list Z) :
  ∀ acc, sum_from acc (VInt <$> ns) = Ok (acc + foldr Z.add 0 ns).
Proof.
  induction ns as [|n ns IH]; csimpl; intros acc.
  - f_equal. lia.
  - rewrite IH. f_equal. lia.
Qed.

Lemma sum_from_str (vs : list value) (s : string) :
  VStr s ∈ vs → ∀ acc, sum_from acc vs = Raise TypeError.
Proof.
  induction vs as [|[n|s'] vs IH]; intros Hs acc; simpl.
  - by apply elem_of_nil in Hs.
  - apply elem_of_cons in Hs as [?|Hs]; [done|]. by apply IH.
  - done.
Qed.

Lemma positive_of_ints (ns : list Z) :
  positive_of (VInt <$> ns) = Ok (VInt <$> filter (λ n, 0 < n) ns).
Proof.
  induction ns as [|n ns IH]; csimpl; [done|]. rewrite IH. simpl.
  rewrite filter_cons. destruct (Z.ltb_spec 0 n).
  - by rewrite decide_True.
  - by rewrite decide_False by lia.
Qed.

Lemma int_of_positive_ints (ns : list Z) :
  int_of_positive (VInt <$> ns) = Ok (filter (λ n, 0 < n) ns).
Proof.
  induction ns as [|n ns IH]; csimpl; [done|].
  rewrite filter_cons. destruct (Z.ltb_spec 0 n).
  - rewrite decide_True by done. simpl. by rewrite IH.
  - by rewrite decide_False by lia.
Qed.

(** [general_info] on integer counts whose least and greatest keys are
    dates: six lines, then the mean is computed, and only if it returns
    are the last two lines logged. *)
Lemma general_info_ints (app_opens : list (string * value)) (ns : list Z)
    (lo hi : string) (dlo dhi : date) :
  values app_opens = VInt <$> ns →
  Py.min (keys app_opens) = Ok lo → Py.max (keys app_opens) = Ok hi →
  strptime lo = Ok dlo → strptime hi = Ok dhi →
  general_info app_opens
  = Report
      (["--- General Info ---";
        "Start Date: " +:+ lo;
        "End Date:   " +:+ hi;
        "Days:       " +:+ format_d (toordinal dhi - toordinal dlo);
        "  - used:   " +:+ format_d (Z.of_nat (length (filter (λ n, 0 < n) ns)));
        "  - unused: " +:+ format_d (toordinal dhi - toordinal dlo
                           - Z.of_nat (length (filter (λ n, 0 < n) ns)))]
       ++ match np_mean (filter (λ n, 0 < n) ns) with
          | Ok mean =>
              ["Av. app-open per usage-day: " +:+ format_1f mean; EmptyString]
          | Raise _ => []
          end)
      (_ ← np_mean (filter (λ n, 0 < n) ns); Ok ()).
Proof.
  intros Hv Hlo Hhi Hdlo Hdhi. unfold general_info.
  rewrite Hlo, lift_Ok_bind, Hhi, lift_Ok_bind, Hv.
  rewrite positive_of_ints, lift_Ok_bind, Hdhi, lift_Ok_bind, Hdlo, lift_Ok_bind.
  rewrite int_of_positive_ints, length_fmap, !LOG_info_bind, lift_Ok_bind.
  by destruct (np_mean _).
Qed.

(** The positive counts of a mapping whose integer counts stay below
    [2^64] are within the 64-bit range. *)
Lemma positive_counts_in_range (ns : list Z) :
  Forall (λ n, n < 2 ^ 64) ns →
  Forall (λ n, - 2 ^ 63 ≤ n < 2 ^ 64) (filter (λ n, 0 < n) ns).
Proof.
  rewrite !Forall_forall. intros Hb n [Hpos Hn]%list_elem_of_filter.
  specialize (Hb n Hn). lia.
Qed.
End counts_facts.

Section extras_reports.
Import Py Float DateTime Main Groups.

Lemma general_info_Ok_inv (app_opens : list (string * value)) :
  outcome (general_info app_opens) = Ok () →
  Forall int_valued (values app_opens)
  ∧ ∃ lo hi, Py.min (keys app_opens) = Ok lo
             ∧ Py.max (keys app_opens) = Ok hi
             ∧ is_Ok (strptime lo) ∧ is_Ok (strptime hi).
Proof.
  destruct app_opens as [|[k v] rest]; [done|]. unfold general_info.
  change (Py.min (keys ((k, v) :: rest))) with (Ok (min_from k (keys rest))).
  change (Py.max (keys ((k, v) :: rest))) with (Ok (max_from k (keys rest))).
  rewrite !lift_Ok_bind.
  destruct (decide (Forall int_valued (values ((k, v) :: rest)))) as [Hi|Hs].
  2:{ apply not_int_valued in Hs as [s Hs].
      by rewrite (positive_of_str _ _ Hs). }
  destruct (proj1 (int_valued_fmap _) Hi) as [ns Hns].
  rewrite Hns, positive_of_ints, lift_Ok_bind.
  destruct (strptime (max_from k (keys rest))) as [dhi|e] eqn:Ehi; [|done].
  rewrite lift_Ok_bind.
  destruct (strptime (min_from k (keys rest))) as [dlo|e] eqn:Elo; [|done].
  intros _. split; [by rewrite <- Hns|].
  exists (min_from k (keys rest)), (max_from k (keys rest)).
  rewrite Ehi, Elo. repeat split; apply is_Ok_Ok.
Qed.

(** X7 (when [general_info] returns).  For a mapping whose integer counts
    are all below [2^64], [general_info] returns exactly when the mapping
    is not empty, no count is a string, and its least and greatest keys,
    in string order, are accepted by [strptime]; no other key is ever
    parsed. *)
Theorem general_info_returns_iff (app_opens : list (string * value)) :
  (∀ n, VInt n ∈ values app_opens → n < 2 ^ 64) →
  outcome (general_info app_opens) = Ok ()
  ↔ Forall int_valued (values app_opens)
    ∧ ∃ lo hi, Py.min (keys app_opens) = Ok lo
               ∧ Py.max (keys app_opens) = Ok hi
               ∧ is_Ok (strptime lo) ∧ is_Ok (strptime hi).
Proof.
  intros Hbound. split; [apply general_info_Ok_inv|].
  intros (Hi & lo & hi & Hlo & Hhi & [dlo Hdlo] & [dhi Hdhi]).
  apply int_valued_fmap in Hi as [ns Hns].
  rewrite (general_info_ints _ _ _ _ _ _ Hns Hlo Hhi Hdlo Hdhi).
  destruct (np_mean_returns (filter (λ n, 0 < n) ns)) as [mean ->]; [|done].
  apply positive_counts_in_range, Forall_forall. intros n Hn.
  apply Hbound. rewrite Hns. by apply list_elem_of_fmap_2.
Qed.

Lemma general_info_returns_iff_witness :
  outcome (general_info [("2024-03-05", VInt 4); ("2024-02-xx", VInt 1);
                         ("2024-01-31", VInt 0)]) = Ok ()
  ↔ Forall int_valued (values [("2024-03-05", VInt 4); ("2024-02-xx", VInt 1);
                               ("2024-01-31", VInt 0)])
    ∧ ∃ lo hi, Py.min (keys [("2024-03-05", VInt 4); ("2024-02-xx", VInt 1);
                             ("2024-01-31", VInt 0)]) = Ok lo
               ∧ Py.max (keys [("2024-03-05", VInt 4); ("2024-02-xx", VInt 1);
                               ("2024-01-31", VInt 0)]) = Ok hi
               ∧ is_Ok (strptime lo) ∧ is_Ok (strptime hi).
Proof.
  apply general_info_returns_iff.
  intros n Hn. simpl in Hn.
  repeat (apply elem_of_cons in Hn as [[= ->]|Hn]; [lia|]).
  by apply elem_of_nil in Hn.
Defined.



(** X9 (a history of one day).  For a mapping with a single date and a
    positive integer count below [2^64], [general_info] logs a span of 0
    days, 1 used day and -1 unused days: the span is the difference of the
    two end dates, not the number of days it covers.  The mean it logs is
    the count, as a double, over [1.0]. *)
Theorem general_info_single_day (k : string) (n : Z) (d : date) :
  strptime k = Ok d → 0 < n < 2 ^ 64 →
  general_info [(k, VInt n)]
  = Report ["--- General Info ---"; "Start Date: " +:+ k;
            "End Date:   " +:+ k; "Days:       0"; "  - used:   1";
            "  - unused: -1";
            "Av. app-open per usage-day: "
              +:+ format_1f (fdiv (of_int n) (of_int 1));
            EmptyString]
           (Ok ()).
Proof.
  intros Hd Hn.
  rewrite (general_info_ints [(k, VInt n)] [n] k k d d); try done.
  rewrite filter_cons, decide_True by lia. rewrite filter_nil.
  by rewrite (np_mean_single n Hn), Z.sub_diag.
Qed.

Lemma general_info_single_day_witness :
  general_info [("2024-03-05", VInt 4)]
  = Report ["--- General Info ---"; "Start Date: 2024-03-05";
            "End Date:   2024-03-05"; "Days:       0"; "  - used:   1";
            "  - unused: -1"; "Av. app-open per usage-day: 4.0";
            EmptyString]
           (Ok ()).
Proof.
  apply (general_info_single_day "2024-03-05" 4 (Date 2024 3 5)).
  - by vm_compute.
  - lia.
Defined.

(** X10 ([messages_total] on integer and on string counts).  With integer
    counts [messages_total] logs the two sums, grouped by thousands with
    apostrophes, and returns; a string-encoded count in either mapping
    makes [sum()] raise [TypeError] before anything is logged. *)
Theorem messages_total_outcomes (sent received : list (string * value)) :
  (∀ ns ms, values sent = VInt <$> ns → values received = VInt <$> ms →
     messages_total sent received
     = Report ["--- Message Statistics ---";
               replace_comma ("Send:     "
                              +:+ format_comma_d (foldr Z.add 0 ns));
               replace_comma ("Received: "
                              +:+ format_comma_d (foldr Z.add 0 ms));
               EmptyString]
              (Ok ()))
  ∧ (∀ s, VStr s ∈ values sent ∨ VStr s ∈ values received →
     messages_total sent received = Report [] (Raise TypeError)).
Proof.
  split.
  - intros ns ms Hs Hr. unfold messages_total, Py.sum.
    by rewrite Hs, Hr, !sum_from_ints, !lift_Ok_bind.
  - intros s [Hs|Hr]; unfold messages_total, Py.sum.
    + by rewrite (sum_from_str _ _ Hs).
    + destruct (sum_from 0 (values sent)) as [t|e] eqn:E.
      * by rewrite lift_Ok_bind, (sum_from_str _ _ Hr).
      * destruct (decide (Forall int_valued (values sent))) as [Hi|Hn].
        -- apply int_valued_fmap in Hi as [ns Hns].
           by rewrite Hns, sum_from_ints in E.
        -- apply not_int_valued in Hn as [s' Hs'].
           rewrite (sum_from_str _ _ Hs') in E. by injection E as <-.
Qed.

(** X11 ([swipes_total] on string counts).  A string-encoded count in the
    likes, the passes or the matches makes [swipes_total] raise [TypeError]
    before anything is logged, the header included. *)
Theorem swipes_total_string_count
    (likes passes matches : list (string * value)) (s : string) :
  VStr s ∈ values likes ∨ VStr s ∈ values passes ∨ VStr s ∈ values matches →
  swipes_total likes passes matches = Report [] (Raise TypeError).
Proof.
  assert (∀ vs, (∃ t, sum_from 0 vs = Ok t) ∨ sum_from 0 vs = Raise TypeError)
    as Hsum.
  { intros vs. destruct (decide (Forall int_valued vs)) as [Hi|Hn].
    - apply int_valued_fmap in Hi as [ns ->]. rewrite sum_from_ints. eauto.
    - apply not_int_valued in Hn as [s' Hs']. right. by apply (sum_from_str _ s'). }
  intros Hs. unfold swipes_total, Py.sum.
  destruct Hs as [Hs|[Hs|Hs]].
  - by rewrite (sum_from_str _ _ Hs).
  - destruct (Hsum (values likes)) as [[tl ->]| ->]; [|done].
    by rewrite lift_Ok_bind, (sum_from_str _ _ Hs).
  - destruct (Hsum (values likes)) as [[tl ->]| ->]; [|done].
    rewrite lift_Ok_bind.
    destruct (Hsum (values passes)) as [[tp ->]| ->]; [|done].
    by rewrite lift_Ok_bind, (sum_from_str _ _ Hs).
Qed.

Lemma swipes_total_string_count_witness :
  swipes_total [("2024-01-01", VInt 10)] [("2024-01-01", VStr "5")]
               [("2024-01-01", VInt 2)]
  = Report [] (Raise TypeError).
Proof.
  apply (swipes_total_string_count _ _ _ "5"). right. left. left.
Defined.

End extras_reports.

(** ** The message timeline *)

Section loyalty_facts.
Import Py Loyalty.
Context {T : Type} (parse : string → result T).




Lemma plot_from_lookup (matches : list match_obj) :
  ∀ idx plotted,
    plot_from parse idx matches = Ok plotted →
    length plotted = length matches
    ∧ ∀ i m, matches !! i = Some m →
        ∃ dates, mapM parse (sent_date <$> messages m) = Ok dates
                 ∧ plotted !! i
                   = Some (dates, replicate (length dates) (idx + i)%nat).
Proof.
  induction matches as [|m rest IH]; simpl; intros idx plotted Hp.
  - injection Hp as <-. by split.
  - apply bind_Ok in Hp as (dates & Hd & Hp).
    apply bind_Ok in Hp as (ps & Hps & [= <-]).
    destruct (IH _ _ Hps) as [Hlen Hlook]. split; [simpl; by rewrite Hlen|].
    intros [|i] m' Hm'; simpl in *.
    + injection Hm' as <-. exists dates. by rewrite Nat.add_0_r.
    + destruct (Hlook i m' Hm') as (ds & Hds & Hi). exists ds.
      split; [done|]. by rewrite Hi, Nat.add_succ_r.
Qed.
End loyalty_facts.

Section extras_loyalty.
Import Py Loyalty.

(** X12 (the timeline is drawn in reverse export order).  When
    [message_loyality] returns, it has drawn one series per match; the
    match at position [i] of the export is drawn at height
    [len(Messages) - 1 - i], so the last listed match lies on the
    baseline, and its series has one point per message, at the parsed
    timestamps in message order, all at that height, a match without
    messages included. *)
Theorem message_loyality_reversed {T} (parse : string → result T)
    (Messages : list match_obj) (plotted : list (list T * list nat)) :
  message_loyality parse Messages = Ok plotted →
  length plotted = length Messages
  ∧ ∀ i m, Messages !! i = Some m →
      ∃ dates, mapM parse (sent_date <$> messages m) = Ok dates
               ∧ plotted !! (length Messages - 1 - i)%nat
                 = Some (dates, replicate (length dates)
                                  (length Messages - 1 - i)%nat).
Proof.
  unfold message_loyality. intros Hp.
  destruct (plot_from_lookup parse _ _ _ Hp) as [Hlen Hlook].
  rewrite length_reverse in Hlen. split; [done|]. intros i m Hm.
  pose proof (lookup_lt_Some _ _ _ Hm) as Hi.
  apply (Hlook (length Messages - 1 - i)%nat m).
  rewrite reverse_lookup by lia. rewrite <- Hm. f_equal. lia.
Qed.

Lemma message_loyality_reversed_witness :
  length [([1%nat], [0%nat]); ([2%nat; 3%nat], [1%nat; 1%nat])]
  = length [Match [Message "bb"; Message "ccc"]; Match [Message "a"]]
  ∧ ∀ i m,
      [Match [Message "bb"; Message "ccc"]; Match [Message "a"]] !! i = Some m →
      ∃ dates,
        mapM (λ s, Ok (String.length s)) (sent_date <$> messages m) = Ok dates
        ∧ [([1%nat], [0%nat]); ([2%nat; 3%nat], [1%nat; 1%nat])]
            !! (length [Match [Message "bb"; Message "ccc"]; Match [Message "a"]]
                - 1 - i)%nat
          = Some (dates,
                  replicate (length dates)
                    (length [Match [Message "bb"; Message "ccc"];
                             Match [Message "a"]] - 1 - i)%nat).
Proof.
  apply (message_loyality_reversed (λ s, Ok (String.length s))).
  reflexivity.
Defined.


End extras_loyalty.

(** ** The series of the charts *)

Section chart_facts.
Import Py Float Main Groups Charts.
Context `{Countable K, PyOrd K}.

Lemma py_lt_antisym : AntiSymm (=) (py_lt (K:=K)).
Proof.
  intros a b Hab Hba. destruct (irreflexivity py_lt a). by etrans.
Qed.

Lemma series_keys_elem (m : gmap K Z) (k : K) :
  k ∈ (series m).1 ↔ is_Some (m !! k).
Proof.
  unfold series, _split_tuples. simpl. rewrite list_elem_of_fmap. split.
  - intros [[k' v] [-> Hin]]. apply elem_of_sorted_items in Hin. by exists v.
  - intros [v Hv]. exists (k, v). split; [done|]. by apply elem_of_sorted_items.
Qed.

Lemma series_keys_sorted (m : gmap K Z) : StronglySorted py_lt (series m).1.
Proof.
  apply keys_strictly_sorted;
    [apply sorted_items_NoDup | apply sorted_StronglySorted].
Qed.

Lemma series_lengths (m : gmap K Z) :
  length (series m).2 = length (series m).1.
Proof. unfold series, _split_tuples. simpl. by rewrite !length_fmap. Qed.

(** Two grouped mappings with the same keys have the same key series. *)
Lemma series_keys_dom (m1 m2 : gmap K Z) :
  dom m1 = dom m2 → (series m1).1 = (series m2).1.
Proof.
  intros Hdom. apply (@StronglySorted_unique _ py_lt py_lt_antisym).
  - apply series_keys_sorted.
  - apply series_keys_sorted.
  - apply NoDup_Permutation; [apply sorted_items_NoDup..|].
    intros k. by rewrite !series_keys_elem, <- !elem_of_dom, Hdom.
Qed.

Lemma series_total (m : gmap K Z) : foldr Z.add 0 (series m).2 = total m.
Proof.
  unfold series, _split_tuples, total. simpl. apply sum_Permutation.
  by rewrite sorted_Permutation.
Qed.

Lemma broadcast_same_length {A B C} (f : A → B → C) (a : list A) (b : list B) :
  length a = length b → broadcast f a b = Some (zip_with f a b).
Proof. intros Hl. unfold broadcast. by rewrite decide_True. Qed.

Lemma mapM_int_coerced (vs : list value) (ns : list Z) :
  mapM int vs = Ok ns → ns = coerced <$> vs.
Proof.
  revert ns. induction vs as [|v vs IH]; simpl; intros ns Hns.
  - by injection Hns as <-.
  - apply bind_Ok in Hns as (n & Hn & Hns).
    apply bind_Ok in Hns as (ns' & Hns' & [= <-]).
    unfold coerced at 1. rewrite Hn. f_equal. by apply IH.
Qed.
End chart_facts.

Section extras_charts.
Import Py Float Main Groups Charts.
#[local] Arguments np_truediv : simpl never.
#[local] Arguments np_add : simpl never.
#[local] Arguments mul_int : simpl never.

(** X14 (the ratio line of the message charts).  When the sent and the
    received counts have the same group keys (and lie within int64), the
    ratio line has one point per key, and the point over a key is the
    received count of that key divided by its sent count, times 100, in
    binary64; a sent count of zero gives an infinity or NaN there, not an
    exception. *)
Theorem messages_ratio_aligned `{Countable K, PyOrd K}
    (sent received : gmap K Z) :
  dom sent = dom received →
  map_Forall (λ _ v, int64 v) sent → map_Forall (λ _ v, int64 v) received →
  ∃ ys, messages_ratio_line (series sent) (series received)
        = Some ((series sent).1, ys)
        ∧ length ys = length (series sent).1
        ∧ ∀ i k, (series sent).1 !! i = Some k →
            ∃ s r, sent !! k = Some s ∧ received !! k = Some r
                   ∧ ys !! i = Some (mul_int (np_truediv r s) 100).
Proof.
  intros Hdom _ _.
  pose proof (series_keys_dom _ _ Hdom) as Hkeys.
  pose proof (series_lengths sent) as Hls.
  pose proof (series_lengths received) as Hlr.
  pose proof (series_lookup sent) as Hlook_s.
  pose proof (series_lookup received) as Hlook_r.
  pose proof (series_keys_elem sent) as Helem.
  destruct (series sent) as [ks vs], (series received) as [kr vr].
  simpl in *. subst kr.
  unfold messages_ratio_line, percent. simpl.
  rewrite broadcast_same_length by congruence. simpl.
  eexists. split; [done|]. split.
  - rewrite length_fmap, length_zip_with. lia.
  - intros i k Hk.
    assert (is_Some (sent !! k)) as [s Hsk].
    { apply Helem. by eapply list_elem_of_lookup_2. }
    pose proof (Hlook_s i k Hk) as Hs. rewrite Hsk in Hs.
    assert (is_Some (received !! k)) as [r Hrk].
    { rewrite <- elem_of_dom, <- Hdom, elem_of_dom. by exists s. }
    pose proof (Hlook_r i k Hk) as Hr. rewrite Hrk in Hr.
    exists s, r. repeat split; [done..|].
    by rewrite list_lookup_fmap, lookup_zip_with, Hr, Hs.
Qed.

Lemma messages_ratio_aligned_witness :
  ∃ ys, messages_ratio_line
          (series ({["2024-01" := 4; "2024-02" := 0]} : gmap string Z))
          (series ({["2024-01" := 2; "2024-02" := 3]} : gmap string Z))
        = Some ((series ({["2024-01" := 4; "2024-02" := 0]} : gmap string Z)).1,
                ys)
        ∧ length ys
          = length (series ({["2024-01" := 4; "2024-02" := 0]}
                              : gmap string Z)).1
        ∧ ∀ i k,
            (series ({["2024-01" := 4; "2024-02" := 0]} : gmap string Z)).1 !! i
            = Some k →
            ∃ s r,
              ({["2024-01" := 4; "2024-02" := 0]} : gmap string Z) !! k = Some s
              ∧ ({["2024-01" := 2; "2024-02" := 3]} : gmap string Z) !! k
                = Some r
              ∧ ys !! i = Some (mul_int (np_truediv r s) 100).
Proof.
  apply messages_ratio_aligned.
  - by vm_compute.
  - apply map_Forall_insert_2; [unfold int64; lia|].
    apply map_Forall_singleton. unfold int64. lia.
  - apply map_Forall_insert_2; [unfold int64; lia|].
    apply map_Forall_singleton. unfold int64. lia.
Defined.

(** X15 (the two lines of the relative swipe charts).  When likes, passes
    and matches have the same group keys (with counts, and the sum of likes
    and passes, within int64), both lines have one point per key: over a
    key, the likes divided by likes plus passes, and the matches divided
    by the likes, each times 100 in binary64. *)
Theorem swipes_relative_aligned `{Countable K, PyOrd K}
    (likes passes matches : gmap K Z) :
  dom passes = dom likes → dom matches = dom likes →
  map_Forall (λ _ v, int64 v) likes → map_Forall (λ _ v, int64 v) passes →
  map_Forall (λ _ v, int64 v) matches →
  (∀ k l p, likes !! k = Some l → passes !! k = Some p → int64 (l + p)) →
  ∃ ls ms,
    swipes_relative_lines (series likes) (series passes) (series matches)
    = Some (((series likes).1, ls), ((series matches).1, ms))
    ∧ (series matches).1 = (series likes).1
    ∧ ∀ i k, (series likes).1 !! i = Some k →
        ∃ l p mt, likes !! k = Some l ∧ passes !! k = Some p
                  ∧ matches !! k = Some mt
                  ∧ ls !! i = Some (mul_int (np_truediv l (l + p)) 100)
                  ∧ ms !! i = Some (mul_int (np_truediv mt l) 100).
Proof.
  intros Hdp Hdm _ _ _ Hsum.
  pose proof (series_keys_dom _ _ Hdp) as Hkp.
  pose proof (series_keys_dom _ _ Hdm) as Hkm.
  pose proof (series_lengths likes) as Hll.
  pose proof (series_lengths passes) as Hlp.
  pose proof (series_lengths matches) as Hlm.
  pose proof (series_lookup likes) as Hlook_l.
  pose proof (series_lookup passes) as Hlook_p.
  pose proof (series_lookup matches) as Hlook_m.
  pose proof (series_keys_elem likes) as Helem.
  destruct (series likes) as [kl vl], (series passes) as [kp vp],
    (series matches) as [km vm].
  simpl in *. subst kp km.
  unfold swipes_relative_lines, percent. simpl.
  rewrite (broadcast_same_length np_add) by congruence. simpl.
  rewrite (broadcast_same_length np_truediv vl)
    by (rewrite length_zip_with; lia).
  rewrite (broadcast_same_length np_truediv vm) by congruence. simpl.
  eexists _, _. split; [done|]. split; [done|].
  intros i k Hk.
  assert (is_Some (likes !! k)) as [l Hlk].
  { apply Helem. by eapply list_elem_of_lookup_2. }
  assert (is_Some (passes !! k)) as [p Hpk].
  { rewrite <- elem_of_dom, Hdp, elem_of_dom. by exists l. }
  assert (is_Some (matches !! k)) as [mt Hmk].
  { rewrite <- elem_of_dom, Hdm, elem_of_dom. by exists l. }
  pose proof (Hlook_l i k Hk) as Hl. rewrite Hlk in Hl.
  pose proof (Hlook_p i k Hk) as Hp. rewrite Hpk in Hp.
  pose proof (Hlook_m i k Hk) as Hm. rewrite Hmk in Hm.
  exists l, p, mt. repeat split; [done..| |].
  - rewrite list_lookup_fmap, !lookup_zip_with, Hl, Hp. simpl.
    unfold np_add, wrap64. pose proof (Hsum k l p Hlk Hpk) as Hb.
    unfold int64 in Hb. do 4 f_equal.
    rewrite Z.mod_small by lia. lia.
  - by rewrite list_lookup_fmap, lookup_zip_with, Hm, Hl.
Qed.

Lemma swipes_relative_aligned_witness :
  ∃ ls ms,
    swipes_relative_lines (series ({[0 := 6; 1 := 2]} : gmap Z Z))
      (series ({[0 := 2; 1 := 0]} : gmap Z Z))
      (series ({[0 := 3; 1 := 1]} : gmap Z Z))
    = Some (((series ({[0 := 6; 1 := 2]} : gmap Z Z)).1, ls),
            ((series ({[0 := 3; 1 := 1]} : gmap Z Z)).1, ms))
    ∧ (series ({[0 := 3; 1 := 1]} : gmap Z Z)).1
      = (series ({[0 := 6; 1 := 2]} : gmap Z Z)).1
    ∧ ∀ i k, (series ({[0 := 6; 1 := 2]} : gmap Z Z)).1 !! i = Some k →
        ∃ l p mt, ({[0 := 6; 1 := 2]} : gmap Z Z) !! k = Some l
                  ∧ ({[0 := 2; 1 := 0]} : gmap Z Z) !! k = Some p
                  ∧ ({[0 := 3; 1 := 1]} : gmap Z Z) !! k = Some mt
                  ∧ ls !! i = Some (mul_int (np_truediv l (l + p)) 100)
                  ∧ ms !! i = Some (mul_int (np_truediv mt l) 100).
Proof.
  apply swipes_relative_aligned.
  - by vm_compute.
  - by vm_compute.
  - apply map_Forall_insert_2; [unfold int64; lia|].
    apply map_Forall_singleton. unfold int64. lia.
  - apply map_Forall_insert_2; [unfold int64; lia|].
    apply map_Forall_singleton. unfold int64. lia.
  - apply map_Forall_insert_2; [unfold int64; lia|].
    apply map_Forall_singleton. unfold int64. lia.
  - intros k l p Hl Hp.
    assert (0 ≤ l ≤ 6 ∧ 0 ≤ p ≤ 2) as Hb; [|unfold int64; lia].
    destruct (decide (k = 0)) as [->|]; [by simplify_map_eq|].
    destruct (decide (k = 1)) as [->|]; by simplify_map_eq.
Defined.

(** X16 (what every chart plots).  When the grouping behind a chart
    returns, its key series holds exactly the group keys that some input
    key classifies to, in strictly ascending order, the value at each
    index is the sum of the coerced counts of that group, and the values
    add up to the sum of all coerced counts. *)
Theorem grouped_series_groups `{Countable K, PyOrd K}
    (id_fun : string → result K) (data : list (string * value))
    (ks : list K) (vs : list Z) :
  grouped_series id_fun data = Ok (ks, vs) →
  StronglySorted py_lt ks
  ∧ (∀ g, g ∈ ks ↔ ∃ k, k ∈ keys data ∧ id_fun k = Ok g)
  ∧ (∀ i g, ks !! i = Some g → vs !! i = Some (group_sum id_fun g data))
  ∧ foldr Z.add 0 vs = foldr Z.add 0 (coerced <$> values data).
Proof.
  unfold grouped_series. intros Hg.
  apply bind_Ok in Hg as (m & Hm & Hs).
  assert (series m = (ks, vs)) as Hs'.
  { assert (∀ a b : list K * list Z, Ok a = Ok b → a = b) as Hinj
      by (by intros a b [= ->]).
    by apply Hinj. }
  clear Hs. rename Hs' into Hs.
  pose proof (series_keys_sorted m) as Hsorted.
  pose proof (series_keys_elem m) as Helem.
  pose proof (series_lookup m) as Hlk.
  pose proof (series_total m) as Htot.
  rewrite Hs in Hsorted, Helem, Hlk, Htot. simpl in *.
  pose proof (get_mapped_sum_lookup _ _ _ Hm) as Hlook.
  repeat split.
  - done.
  - rewrite Helem, Hlook. destruct (decide _) as [He|Hne].
    + by intros [].
    + intros _. by apply members_elem.
  - intros (k & Hk & Hkg). rewrite Helem, Hlook.
    rewrite decide_False; [done|]. intros He.
    apply list_elem_of_fmap in Hk as [[k' v] [-> Hin]].
    assert ((k', v) ∈ members id_fun g data) as Hmem
      by by apply list_elem_of_filter.
    rewrite He in Hmem. by apply elem_of_nil in Hmem.
  - intros i g Hi. rewrite (Hlk i g Hi), Hlook.
    rewrite decide_False; [done|]. intros He.
    assert (is_Some (m !! g)) as [v Hv].
    { apply Helem. by eapply list_elem_of_lookup_2. }
    by rewrite Hlook, decide_True in Hv.
  - rewrite Htot.
    apply mapped_loop_Ok_inv in Hm as (_ & ns & Hns & Ht).
    rewrite Ht, total_empty, (mapM_int_coerced _ _ Hns). lia.
Qed.

Lemma grouped_series_groups_witness :
  StronglySorted py_lt ["2024-01"; "2024-02"]
  ∧ (∀ g, g ∈ ["2024-01"; "2024-02"]
       ↔ ∃ k, k ∈ keys [("2024-02-01", VInt 5); ("2024-01-01", VStr "1");
                        ("2024-01-09", VInt 3)]
              ∧ month_id k = Ok g)
  ∧ (∀ i g, ["2024-01"; "2024-02"] !! i = Some g →
       [4; 5] !! i
       = Some (group_sum month_id g
                 [("2024-02-01", VInt 5); ("2024-01-01", VStr "1");
                  ("2024-01-09", VInt 3)]))
  ∧ foldr Z.add 0 [4; 5]
    = foldr Z.add 0
        (coerced <$> values [("2024-02-01", VInt 5); ("2024-01-01", VStr "1");
                             ("2024-01-09", VInt 3)]).
Proof.
  apply (grouped_series_groups month_id). by vm_compute.
Defined.

End extras_charts.

(** ** Date keys *)

Section canonical_keys.
Import Py DateTime Main Calendar.

Lemma in_range_spec (lo hi c : ascii) :
  in_range lo hi c = true
  ↔ (nat_of_ascii lo ≤ nat_of_ascii c ≤ nat_of_ascii hi)%nat.
Proof.
  unfold in_range. rewrite andb_true_iff, !Nat.leb_le. done.
Qed.

Lemma in_range_digit (lo hi c : ascii) :
  in_range lo hi c = true →
  (48 ≤ nat_of_ascii lo)%nat → (nat_of_ascii hi ≤ 57)%nat → digit c.
Proof.
  intros Hc Hlo Hhi. apply in_range_spec in Hc. apply in_range_spec.
  change (nat_of_ascii "0") with 48%nat. change (nat_of_ascii "9") with 57%nat.
  lia.
Qed.

Lemma digit_dval (c : ascii) : digit c → 0 ≤ dval c ≤ 9.
Proof.
  intros Hc. apply in_range_spec in Hc. unfold dval.
  change (nat_of_ascii "0") with 48%nat in Hc.
  change (nat_of_ascii "9") with 57%nat in Hc. lia.
Qed.

Lemma dval_inj (c c' : ascii) : dval c = dval c' → c = c'.
Proof.
  unfold dval. intros Hd.
  rewrite <- (ascii_nat_embedding c), <- (ascii_nat_embedding c').
  f_equal. lia.
Qed.

Lemma new_date_Ok (y m d : Z) (dt : date) :
  new_date y m d = Ok dt → dt = Date y m d ∧ valid dt.
Proof.
  unfold new_date. destruct (_ && _) eqn:E; [|done]. intros [= <-].
  split; [done|]. unfold valid. simpl.
  repeat (apply andb_true_iff in E as [E ?]). lia.
Qed.

#[local] Arguments in_range : simpl never.
#[local] Arguments dval : simpl never.
#[local] Arguments new_date : simpl never.
#[local] Arguments Ascii.eqb : simpl never.

Lemma strptime_shape (k : string) (dt : date) :
  strptime k = Ok dt → String.length k = 10%nat →
  ∃ y1 y2 y3 y4 m1 m2 d1 d2,
    k = string_of_list_ascii [y1; y2; y3; y4; "-"; m1; m2; "-"; d1; d2]%char
    ∧ Forall digit [y1; y2; y3; y4; m1; m2; d2]
    ∧ (digit d1 ∨ d1 = " "%char)
    ∧ year dt = 1000 * dval y1 + 100 * dval y2 + 10 * dval y3 + dval y4
    ∧ month dt = 10 * dval m1 + dval m2
    ∧ (digit d1 → day dt = 10 * dval d1 + dval d2)
    ∧ valid dt.
Proof.
  intros Hs Hlen. unfold strptime in Hs.
  rewrite <- (string_of_list_ascii_of_string k).
  rewrite <- length_list_ascii in Hlen.
  destruct (list_ascii_of_string k)
    as [|c0 [|c1 [|c2 [|c3 [|c4 [|c5 [|c6 [|c7 [|c8 [|c9 [|]]]]]]]]]]];
    try discriminate Hlen. clear Hlen.
  unfold match_format, match_Y, match_m, match_d, first_match, two, one,
    literal in Hs. simpl in Hs.
  repeat match type of Hs with
    | context [in_range ?a ?b ?c] =>
        let E := fresh "E" in destruct (in_range a b c) eqn:E; simpl in Hs;
        try discriminate Hs
    | context [Ascii.eqb ?a ?c] =>
        let E := fresh "E" in destruct (Ascii.eqb a c) eqn:E; simpl in Hs;
        try discriminate Hs
    end.
  all: apply new_date_Ok in Hs as [-> Hvalid].
  all: repeat match goal with
         | H : Ascii.eqb _ _ = true |- _ => apply Ascii.eqb_eq in H; subst
         end.
  all: do 8 eexists.
  all: split; [reflexivity|].
  all: split; [repeat constructor|].
  all: try (eapply in_range_digit;
              [eassumption | vm_compute; lia | vm_compute; lia]).
  all: split;
         [first [ left; eapply in_range_digit;
                    [eassumption | vm_compute; lia | vm_compute; lia]
                | by right ]|].
  all: split; [simpl; lia|].
  all: split; [reflexivity|].
  all: split; [|done].
  all: first [ reflexivity | by intros Hd ].
Qed.

Lemma ascii_compare_dval (a b : ascii) :
  Ascii.compare a b = Z.compare (dval a) (dval b).
Proof.
  unfold Ascii.compare, dval, nat_of_ascii. rewrite !N_nat_Z.
  destruct (N.compare_spec (N_of_ascii a) (N_of_ascii b)),
    (Z.compare_spec (Z.of_N (N_of_ascii a) - 48) (Z.of_N (N_of_ascii b) - 48));
    try done; lia.
Qed.

Lemma month_id_shape (y1 y2 y3 y4 m1 m2 d1 d2 : ascii) :
  month_id (string_of_list_ascii
              [y1; y2; y3; y4; "-"; m1; m2; "-"; d1; d2]%char)
  = Ok (string_of_list_ascii [y1; y2; y3; y4; "-"; m1; m2]%char).
Proof. reflexivity. Qed.

Lemma days_in_month_le (y m : Z) : days_in_month y m ≤ 31.
Proof.
  unfold days_in_month. destruct (_ && _); [lia|].
  destruct (Z.to_nat m) as [|n]; simpl; [lia|].
  do 12 (destruct n as [|n]; simpl; [lia|]). destruct n; simpl; lia.
Qed.

Lemma leap_year_length (y : Z) :
  days_before_year (y + 1)
  = days_before_year y + 365 + (if is_leap y then 1 else 0).
Proof.
  unfold days_before_year, is_leap.
  destruct (Z.eqb_spec (y mod 4) 0), (Z.eqb_spec (y mod 100) 0),
    (Z.eqb_spec (y mod 400) 0); simpl; Z.div_mod_to_equations; lia.
Qed.

Lemma days_before_year_mono (y1 y2 : Z) :
  y1 ≤ y2 → days_before_year y1 ≤ days_before_year y2.
Proof. unfold days_before_year. intros. Z.div_mod_to_equations. lia. Qed.

Lemma month_cases (m : Z) :
  1 ≤ m ≤ 12 → ∃ n : nat, m = Z.of_nat n ∧ (1 ≤ n ≤ 12)%nat.
Proof. intros Hm. exists (Z.to_nat m). lia. Qed.

Lemma months_stack (y m1 m2 : Z) :
  1 ≤ m1 → m1 < m2 → m2 ≤ 12 →
  days_before_month y m1 + days_in_month y m1 ≤ days_before_month y m2.
Proof.
  intros H1 H12 H2.
  destruct (month_cases m1 ltac:(lia)) as (n1 & -> & Hn1).
  destruct (month_cases m2 ltac:(lia)) as (n2 & -> & Hn2).
  unfold days_before_month, days_in_month. generalize (is_leap y) as b.
  intros b.
  destruct n1 as [|[|[|[|[|[|[|[|[|[|[|[|[|n1]]]]]]]]]]]]]; try lia.
  all: destruct n2 as [|[|[|[|[|[|[|[|[|[|[|[|[|n2]]]]]]]]]]]]]; try lia.
  all: destruct b; vm_compute; done.
Qed.

Lemma year_end (y m : Z) :
  1 ≤ m ≤ 12 →
  days_before_month y m + days_in_month y m
  ≤ 365 + (if is_leap y then 1 else 0).
Proof.
  intros Hm. destruct (month_cases m Hm) as (n & -> & Hn).
  unfold days_before_month, days_in_month. generalize (is_leap y) as b.
  intros b.
  destruct n as [|[|[|[|[|[|[|[|[|[|[|[|[|n]]]]]]]]]]]]]; try lia.
  all: destruct b; vm_compute; done.
Qed.

Lemma days_before_month_nonneg (y m : Z) : 0 ≤ days_before_month y m.
Proof.
  unfold days_before_month.
  assert (0 ≤ nth (Z.to_nat m)
            [0; 0; 31; 59; 90; 120; 151; 181; 212; 243; 273; 304; 334] 0).
  { destruct (Z.to_nat m) as [|n]; simpl; [lia|].
    do 12 (destruct n as [|n]; simpl; [lia|]). destruct n; simpl; lia. }
  destruct (_ && _); lia.
Qed.

(** Later dates have greater ordinals. *)
Lemma toordinal_lt (d1 d2 : date) :
  valid d1 → valid d2 → datenum d1 < datenum d2 →
  toordinal d1 < toordinal d2.
Proof.
  destruct d1 as [y1 m1 a1], d2 as [y2 m2 a2].
  unfold valid, datenum, toordinal. simpl.
  intros (Hy1 & Hm1 & Ha1) (Hy2 & Hm2 & Ha2) Hlt.
  pose proof (days_in_month_le y1 m1). pose proof (days_in_month_le y2 m2).
  pose proof (days_before_month_nonneg y2 m2).
  destruct (Z.lt_trichotomy y1 y2) as [Hy|[->|Hy]]; [| |lia].
  - pose proof (year_end y1 m1 Hm1). pose proof (leap_year_length y1).
    pose proof (days_before_year_mono (y1 + 1) y2). lia.
  - destruct (Z.lt_trichotomy m1 m2) as [Hm|[->|Hm]]; [| |lia].
    + pose proof (months_stack y2 m1 m2). lia.
    + lia.
Qed.

Lemma toordinal_datenum (d1 d2 : date) :
  valid d1 → valid d2 →
  (datenum d1 < datenum d2 ↔ toordinal d1 < toordinal d2).
Proof.
  intros H1 H2. split; [by apply toordinal_lt|]. intros Hord.
  destruct (Z.lt_trichotomy (datenum d1) (datenum d2)) as [?|[Heq|Hgt]];
    [done| |].
  - assert (d1 = d2) as ->; [|lia].
    destruct d1 as [y1 m1 a1], d2 as [y2 m2 a2].
    unfold valid, datenum in *. simpl in *.
    pose proof (days_in_month_le y1 m1). pose proof (days_in_month_le y2 m2).
    f_equal; lia.
  - pose proof (toordinal_lt d2 d1 H2 H1 Hgt). lia.
Qed.

Lemma str_lt_digits (a0 a1 a2 a3 a5 a6 a8 a9 b0 b1 b2 b3 b5 b6 b8 b9 : ascii) :
  Forall digit [a0; a1; a2; a3; a5; a6; a8; a9] →
  Forall digit [b0; b1; b2; b3; b5; b6; b8; b9] →
  str_lt (string_of_list_ascii [a0; a1; a2; a3; "-"; a5; a6; "-"; a8; a9]%char)
         (string_of_list_ascii [b0; b1; b2; b3; "-"; b5; b6; "-"; b8; b9]%char)
  ↔ (1000 * dval a0 + 100 * dval a1 + 10 * dval a2 + dval a3) * 10000
    + (10 * dval a5 + dval a6) * 100 + (10 * dval a8 + dval a9)
    < (1000 * dval b0 + 100 * dval b1 + 10 * dval b2 + dval b3) * 10000
      + (10 * dval b5 + dval b6) * 100 + (10 * dval b8 + dval b9).
Proof.
  intros Ha Hb.
  repeat match goal with
    | H : Forall digit (_ :: _) |- _ =>
        apply Forall_cons in H as [?%digit_dval H]
    end.
  unfold str_lt. cbn [String.compare string_of_list_ascii].
  rewrite !ascii_compare_dval, !Z.compare_refl.
  repeat match goal with
    | |- match Z.compare ?x ?y with _ => _ end = Lt ↔ _ =>
        destruct (Z.compare_spec x y);
        [ | split; [intros _; lia | done] | split; [done | intros; lia] ]
    end.
  split; [done | lia].
Qed.

Lemma iso_key_shape (k : string) (dt : date) :
  strptime k = Ok dt → iso_key k →
  ∃ y1 y2 y3 y4 m1 m2 d1 d2,
    k = string_of_list_ascii [y1; y2; y3; y4; "-"; m1; m2; "-"; d1; d2]%char
    ∧ Forall digit [y1; y2; y3; y4; m1; m2; d1; d2]
    ∧ datenum dt
      = (1000 * dval y1 + 100 * dval y2 + 10 * dval y3 + dval y4) * 10000
        + (10 * dval m1 + dval m2) * 100 + (10 * dval d1 + dval d2)
    ∧ valid dt.
Proof.
  intros Hs [Hlen Hpad].
  destruct (strptime_shape k dt Hs Hlen)
    as (y1 & y2 & y3 & y4 & m1 & m2 & d1 & d2 & -> & Hdig & Hd1 & Hy & Hm
        & Hd & Hv).
  destruct Hd1 as [Hd1| ->]; [|by destruct Hpad].
  exists y1, y2, y3, y4, m1, m2, d1, d2. split; [done|].
  repeat (apply Forall_cons in Hdig as [? Hdig]).
  split; [by repeat constructor|]. split; [|done].
  unfold datenum. rewrite Hy, Hm, (Hd Hd1). lia.
Qed.

(** On such keys the order of the strings is the order of the days. *)
Lemma iso_key_order (k1 k2 : string) (d1 d2 : date) :
  strptime k1 = Ok d1 → strptime k2 = Ok d2 → iso_key k1 → iso_key k2 →
  (str_lt k1 k2 ↔ toordinal d1 < toordinal d2).
Proof.
  intros Hs1 Hs2 Hi1 Hi2.
  destruct (iso_key_shape k1 d1 Hs1 Hi1)
    as (a0 & a1 & a2 & a3 & a5 & a6 & a8 & a9 & -> & Ha & Hn1 & Hv1).
  destruct (iso_key_shape k2 d2 Hs2 Hi2)
    as (b0 & b1 & b2 & b3 & b5 & b6 & b8 & b9 & -> & Hb & Hn2 & Hv2).
  rewrite (str_lt_digits _ _ _ _ _ _ _ _ _ _ _ _ _ _ _ _ Ha Hb).
  rewrite <- Hn1, <- Hn2. by apply toordinal_datenum.
Qed.

(** [min] and [max] return a least and a greatest element. *)
Lemma ltb_false_trans (a b c : string) :
  String.ltb b a = false → String.ltb c b = false → String.ltb c a = false.
Proof.
  intros Hba Hcb. apply not_true_iff_false. intros Hca%ltb_str_lt.
  apply not_true_iff_false in Hba, Hcb. rewrite ltb_str_lt in Hba, Hcb.
  destruct (str_lt_trichotomy a b) as [Hab|[->|Hab]]; [|done..].
  destruct (str_lt_trichotomy b c) as [Hbc|[->|Hbc]]; [|done..].
  destruct (irreflexivity str_lt c). 
  pose proof str_lt_strict. by do 2 (etrans; [eassumption|]).
Qed.

Lemma min_from_least (l : list string) :
  ∀ best x, x ∈ best :: l → String.ltb x (min_from best l) = false.
Proof.
  induction l as [|y l IH]; simpl; intros best x Hx.
  - apply list_elem_of_singleton in Hx as ->. apply not_true_iff_false.
    rewrite ltb_str_lt. apply (irreflexivity str_lt).
  - destruct (String.ltb y best) eqn:E.
    + apply elem_of_cons in Hx as [->|Hx]; [|by apply IH].
      apply (ltb_false_trans _ y).
      * apply IH. left.
      * apply not_true_iff_false. rewrite ltb_str_lt. intros Hby.
        apply ltb_str_lt in E. pose proof str_lt_strict.
        destruct (irreflexivity str_lt y). by etrans.
    + apply elem_of_cons in Hx as [->|Hx]; [apply IH; left|].
      apply elem_of_cons in Hx as [->|Hx]; [|apply IH; by right].
      apply (ltb_false_trans _ best); [apply IH; left | done].
Qed.

Lemma max_from_greatest (l : list string) :
  ∀ best x, x ∈ best :: l → String.ltb (max_from best l) x = false.
Proof.
  induction l as [|y l IH]; simpl; intros best x Hx.
  - apply list_elem_of_singleton in Hx as ->. apply not_true_iff_false.
    rewrite ltb_str_lt. apply (irreflexivity str_lt).
  - destruct (String.ltb best y) eqn:E.
    + apply elem_of_cons in Hx as [->|Hx]; [|by apply IH].
      apply (ltb_false_trans _ y).
      * apply not_true_iff_false. rewrite ltb_str_lt. intros Hby.
        apply ltb_str_lt in E. pose proof str_lt_strict.
        destruct (irreflexivity str_lt y). by etrans.
      * apply IH. left.
    + apply elem_of_cons in Hx as [->|Hx]; [apply IH; left|].
      apply elem_of_cons in Hx as [->|Hx]; [|apply IH; by right].
      apply (ltb_false_trans _ best); [done | apply IH; left].
Qed.
End canonical_keys.

Section extras_dates.
Import Py DateTime Main Groups Calendar.

(** X17 (the month slice and the calendar month).  For two keys of ten
    characters that [strptime] accepts, the slices [x[0:7]] are equal
    exactly when the two dates have the same year and the same month: on
    such keys the month classifier groups by calendar month. *)
Theorem month_id_calendar_month (k1 k2 : string) (d1 d2 : date) :
  strptime k1 = Ok d1 → strptime k2 = Ok d2 →
  String.length k1 = 10%nat → String.length k2 = 10%nat →
  (month_id k1 = month_id k2 ↔ year d1 = year d2 ∧ month d1 = month d2).
Proof.
  intros Hs1 Hs2 Hl1 Hl2.
  destruct (strptime_shape k1 d1 Hs1 Hl1)
    as (a0 & a1 & a2 & a3 & a5 & a6 & a8 & a9 & -> & Ha & _ & Hy1 & Hm1 & _).
  destruct (strptime_shape k2 d2 Hs2 Hl2)
    as (b0 & b1 & b2 & b3 & b5 & b6 & b8 & b9 & -> & Hb & _ & Hy2 & Hm2 & _).
  rewrite !month_id_shape, Hy1, Hy2, Hm1, Hm2.
  repeat match goal with
    | H : Forall digit (_ :: _) |- _ =>
        apply Forall_cons in H as [?%digit_dval H]
    end.
  split.
  - by intros [= -> -> -> -> -> ->].
  - intros [Hy Hm].
    assert (dval a0 = dval b0 ∧ dval a1 = dval b1 ∧ dval a2 = dval b2
            ∧ dval a3 = dval b3 ∧ dval a5 = dval b5 ∧ dval a6 = dval b6)
      as (?%dval_inj & ?%dval_inj & ?%dval_inj & ?%dval_inj & ?%dval_inj
          & ?%dval_inj) by lia.
    by subst.
Qed.

Lemma month_id_calendar_month_witness :
  month_id "2024-01-05" = month_id "2024-01-31"
  ↔ year (Date 2024 1 5) = year (Date 2024 1 31)
    ∧ month (Date 2024 1 5) = month (Date 2024 1 31).
Proof.
  apply month_id_calendar_month; reflexivity.
Defined.

(** X18 (string order is day order).  For two keys in the form
    [YYYY-MM-DD] that [strptime] accepts, the first is smaller as a string
    exactly when its date is the earlier day; this is what makes [min()],
    [max()] and [sorted()] on the keys chronological. *)
Theorem iso_keys_compare_as_days (k1 k2 : string) (d1 d2 : date) :
  strptime k1 = Ok d1 → strptime k2 = Ok d2 → iso_key k1 → iso_key k2 →
  (str_lt k1 k2 ↔ toordinal d1 < toordinal d2).
Proof. apply iso_key_order. Qed.

Lemma iso_keys_compare_as_days_witness :
  str_lt "2023-12-31" "2024-01-01"
  ↔ toordinal (Date 2023 12 31) < toordinal (Date 2024 1 1).
Proof.
  apply iso_keys_compare_as_days; try reflexivity; (split; [reflexivity|done]).
Defined.

(** X19 (the span of [general_info]).  For a mapping that is not empty,
    with integer counts and keys in the form [YYYY-MM-DD] that [strptime]
    accepts, the start and end dates [general_info] logs are keys of the
    mapping, every key's day lies between them, and the span it logs is
    the number of days from the first to the last, which is not negative;
    if moreover every count is below [2^64], it returns. *)
Theorem general_info_span (app_opens : list (string * value)) (ns : list Z) :
  app_opens ≠ [] →
  values app_opens = VInt <$> ns →
  Forall (λ k, is_Ok (strptime k) ∧ iso_key k) (keys app_opens) →
  ∃ lo hi dlo dhi,
    lo ∈ keys app_opens ∧ hi ∈ keys app_opens
    ∧ strptime lo = Ok dlo ∧ strptime hi = Ok dhi
    ∧ (∀ k d, k ∈ keys app_opens → strptime k = Ok d →
         toordinal dlo ≤ toordinal d ≤ toordinal dhi)
    ∧ 0 ≤ toordinal dhi - toordinal dlo
    ∧ (Forall (λ n, n < 2 ^ 64) ns → outcome (general_info app_opens) = Ok ())
    ∧ emitted (general_info app_opens) !! 1%nat = Some ("Start Date: " +:+ lo)
    ∧ emitted (general_info app_opens) !! 2%nat = Some ("End Date:   " +:+ hi)
    ∧ emitted (general_info app_opens) !! 3%nat
      = Some ("Days:       " +:+ format_d (toordinal dhi - toordinal dlo)).
Proof.
  intros Hne Hns Hkeys. destruct app_opens as [|[k0 v0] rest]; [done|].
  rewrite Forall_forall in Hkeys.
  set (lo := min_from k0 (keys rest)). set (hi := max_from k0 (keys rest)).
  assert (lo ∈ keys ((k0, v0) :: rest)) as Hlo by apply min_from_elem.
  assert (hi ∈ keys ((k0, v0) :: rest)) as Hhi by apply max_from_elem.
  destruct (Hkeys lo Hlo) as [[dlo Hdlo] Hilo].
  destruct (Hkeys hi Hhi) as [[dhi Hdhi] Hihi].
  assert (∀ k d, k ∈ keys ((k0, v0) :: rest) → strptime k = Ok d →
            toordinal dlo ≤ toordinal d ≤ toordinal dhi) as Hbetween.
  { intros k d Hk Hd. split.
    - pose proof (min_from_least (keys rest) k0 k Hk) as Hleast.
      fold lo in Hleast. apply not_true_iff_false in Hleast.
      rewrite ltb_str_lt in Hleast.
      pose proof (iso_key_order k lo d dlo Hd Hdlo (proj2 (Hkeys k Hk)) Hilo)
        as Hiff.
      rewrite Hiff in Hleast. clear -Hleast. lia.
    - pose proof (max_from_greatest (keys rest) k0 k Hk) as Hgr.
      fold hi in Hgr. apply not_true_iff_false in Hgr.
      rewrite ltb_str_lt in Hgr.
      pose proof (iso_key_order hi k dhi d Hdhi Hd Hihi (proj2 (Hkeys k Hk)))
        as Hiff.
      rewrite Hiff in Hgr. clear -Hgr. lia. }
  exists lo, hi, dlo, dhi.
  rewrite (general_info_ints _ ns lo hi dlo dhi) by done.
  do 4 (split; [done|]). split; [exact Hbetween|]. split.
  { pose proof (Hbetween hi dhi Hhi Hdhi) as Hb. clear -Hb. lia. }
  split; [|by repeat split].
  intros Hbound%positive_counts_in_range.
  by destruct (np_mean_returns _ Hbound) as [mean ->].
Qed.

Lemma general_info_span_witness :
  ∃ lo hi dlo dhi,
    lo ∈ keys [("2024-03-01", VInt 2); ("2024-02-28", VInt 0)]
    ∧ hi ∈ keys [("2024-03-01", VInt 2); ("2024-02-28", VInt 0)]
    ∧ strptime lo = Ok dlo ∧ strptime hi = Ok dhi
    ∧ (∀ k d, k ∈ keys [("2024-03-01", VInt 2); ("2024-02-28", VInt 0)] →
         strptime k = Ok d →
         toordinal dlo ≤ toordinal d ≤ toordinal dhi)
    ∧ 0 ≤ toordinal dhi - toordinal dlo
    ∧ (Forall (λ n, n < 2 ^ 64) [2; 0] →
       outcome (general_info [("2024-03-01", VInt 2); ("2024-02-28", VInt 0)])
       = Ok ())
    ∧ emitted (general_info [("2024-03-01", VInt 2); ("2024-02-28", VInt 0)])
        !! 1%nat = Some ("Start Date: " +:+ lo)
    ∧ emitted (general_info [("2024-03-01", VInt 2); ("2024-02-28", VInt 0)])
        !! 2%nat = Some ("End Date:   " +:+ hi)
    ∧ emitted (general_info [("2024-03-01", VInt 2); ("2024-02-28", VInt 0)])
        !! 3%nat
      = Some ("Days:       " +:+ format_d (toordinal dhi - toordinal dlo)).
Proof.
  apply (general_info_span _ [2; 0]).
  - done.
  - reflexivity.
  - repeat constructor; try (by eexists); done.
Defined.

End extras_dates.
